(** * linkchecker2.py: a resumable link-checking crawler

    A shallow embedding of [src/linkchecker2.py].  Python sets of URLs are
    [gset string]; the fetches, the console lines and the report rows form
    one chronological event log which, with the contents of the state
    file, is threaded through a small state-and-exception monad; the
    arbitrary order of [set.pop] and of set iteration is left to the
    environment. *)

From Stdlib Require Import ZArith.
From stdpp Require Import gmap strings list relations pretty.

Set Warnings "-register-all,-clear-no-such-hyp".
Open Scope string_scope.
Open Scope Z_scope.
Open Scope list_scope.

(** ** External capabilities: HTTP responses and parsed documents *)

(** What [requests.get] hands back: status code, headers and body text. *)
Record Response := {
  status_code : Z;
  headers : gmap string string;
  text : string
}.

(** A parsed element: tag name, attributes, children (BeautifulSoup's tree). *)
Inductive Tag := Elem (name : string) (attrs : list (string * string)) (children : list Tag).

Definition tag_name (t : Tag) : string := let 'Elem n _ _ := t in n.
Definition tag_attrs (t : Tag) : list (string * string) := let 'Elem _ a _ := t in a.

(** [t[key]]: the value of an attribute, if present. *)
Fixpoint attr (key : string) (l : list (string * string)) : option string :=
  match l with
  | [] => None
  | (k, v) :: l' => if String.eqb k key then Some v else attr key l'
  end.

(** All descendants of an element, in document order. *)
Fixpoint descendants (t : Tag) : list Tag :=
  match t with
  | Elem _ _ cs => flat_map (fun c => c :: descendants c) cs
  end.

(** [t.find_all(name)] and [t.find_all(name, href=True)]. *)
Definition find_all (name : string) (need_href : bool) (t : Tag) : list Tag :=
  filter (fun d => String.eqb (tag_name d) name = true
                   ∧ (need_href = true → is_Some (attr "href" (tag_attrs d))))
         (descendants t).

(** [link["href"]] for a tag returned by [find_all(_, href=True)]. *)
Definition href (t : Tag) : string := default "" (attr "href" (tag_attrs t)).

(** The (scheme, netloc) part of [urlparse]'s result. *)
Record ParseResult := { scheme : string; netloc : string }.

(** Python truthiness of a string: non-empty. *)
Definition truthy (s : string) : bool :=
  match s with EmptyString => false | _ => true end.

(** ** Events and the monad *)

Inductive event :=
| Get (url : string) (timeout : option Z)      (* requests.get(url[, timeout=..]) *)
| Print (line : string)                        (* print(line) *)
| WriteRow (file : string) (row : list string) (* csv.writer(file).writerow(row), append mode *).

(** The world a run acts on: everything it did so far, oldest first, and
    the contents of [crawl_state.pkl] ([None]: the file does not exist). *)
Record world := {
  log : list event;
  state_file : option (gset string * gset string)
}.

Inductive exception :=
| RequestException (msg : string)
| OtherException (msg : string).

Inductive result (A : Type) :=
| Ok (a : A)
| Raise (e : exception).
Arguments Ok {A} a.
Arguments Raise {A} e.

(** A computation returns a value or raises, and leaves a new world. *)
Definition IO (A : Type) : Type := world → result A * world.

#[global] Instance io_ret : MRet IO := fun A a w => (Ok a, w).

#[global] Instance io_bind : MBind IO := fun A B k m w =>
  match m w with
  | (Ok a, w') => k a w'
  | (Raise e, w') => (Raise e, w')
  end.

(** The world after some more events; files other than the log are kept. *)
Definition add_events (w : world) (evs : list event) : world :=
  {| log := log w ++ evs; state_file := state_file w |}.

Definition emit (e : event) : IO unit := fun w => (Ok tt, add_events w [e]).

Definition print (line : string) : IO unit := emit (Print line).

(** [try: m except requests.exceptions.RequestException as e: h e]. *)
Definition try_except {A} (m : IO A) (h : string → IO A) : IO A :=
  fun w => match m w with
           | (Raise (RequestException msg), w') => h msg w'
           | r => r
           end.

(** [for x in xs: body], threading the loop-carried variables [acc]. *)
Fixpoint for_each {A S} (xs : list A) (body : A → S → IO S) (acc : S) : IO S :=
  match xs with
  | [] => mret acc
  | x :: xs' => acc' ← body x acc; for_each xs' body acc'
  end.

(** An iteration order for Python sets: some enumeration of the elements. *)
Record set_order (A : Type) `{Countable A} := {
  enum :> gset A → list A;
  enum_perm : ∀ s, enum s ≡ₚ elements s
}.
Arguments enum {A _ _} _ _.
Arguments enum_perm {A _ _} _ _.

(** The order stdpp happens to list a set in. *)
Definition elements_order (A : Type) `{Countable A} : set_order A :=
  {| enum := elements; enum_perm := fun s => reflexivity (elements s) |}.

(** [line] without the leading [p], when it starts with [p]. *)
Fixpoint strip_prefix (p line : string) : option string :=
  match p, line with
  | EmptyString, _ => Some line
  | String a p', String b line' =>
      if Ascii.eqb a b then strip_prefix p' line' else None
  | String _ _, EmptyString => None
  end.

(** ** The program *)

(** The loop-carried variables of [crawl_website]. *)
Record crawl_vars := {
  visited_pages : gset string;
  links_to_crawl : gset string;
  count_links : nat
}.

Definition header_row : list string := ["Source Page"; "Link URL"; "Status"].

Definition blocklist_prefix : string :=
  "https://library2.utm.utoronto.ca/otra/reed/tagged-records".

Section Crawler.

(** The network: the answer to a GET may depend on everything done so
    far; it is a response or a [RequestException] with its message. *)
Variable http : list event → string → option Z → Response + string.
(** [BeautifulSoup(text, "html.parser")], [urljoin] and [urlparse], taken
    as total functions of their arguments. *)
Variable BeautifulSoup : string → Tag.
Variable urljoin : string → string → string.
Variable urlparse : string → ParseResult.

(** [requests.get(url)] / [requests.get(url, timeout=n)]. *)
Definition requests_get (url : string) (timeout : option Z) : IO Response :=
  fun w =>
    let w' := add_events w [Get url timeout] in
    match http (log w) url timeout with
    | inl response => (Ok response, w')
    | inr msg => (Raise (RequestException msg), w')
    end.

Definition is_valid_url (url : string) : bool :=
  let parsed := urlparse url in
  truthy (netloc parsed) && truthy (scheme parsed).

Definition is_same_or_subpath (url base_url : string) : bool :=
  String.prefix base_url url.

Definition is_html (response : Response) : bool :=
  let content_type := default "" (headers response !! "Content-Type") in
  bool_decide (is_Some (String.index 0 "text/html" content_type)).

Definition check_link (url : string) : IO string :=
  try_except
    (response ← requests_get url (Some 10);
     if status_code response =? 200 then mret "Working" else mret "Broken")
    (fun _ => mret "Broken").

Definition extract_menu_links (url : string) : IO (gset string) :=
  try_except
    (response ← requests_get url None;
     if negb (is_html response) then mret ∅
     else
       let soup := BeautifulSoup (text response) in
       let nav_tags := find_all "nav" false soup in
       mret (foldl (fun links nav =>
               foldl (fun links link =>
                        let full_url := urljoin url (href link) in
                        if is_valid_url full_url then links ∪ {[full_url]} else links)
                     links (find_all "a" true nav))
             (∅ : gset string) nav_tags))
    (fun e => print ("Error accessing " +:+ url +:+ ": " +:+ e);; mret ∅).

Definition get_body_links (url base_url : string) (menu_links : gset string)
  : IO (gset (string * string)) :=
  try_except
    (response ← requests_get url None;
     if negb (is_html response) then mret ∅
     else
       let soup := BeautifulSoup (text response) in
       mret (foldl (fun links link =>
                      let full_url := urljoin url (href link) in
                      if is_valid_url full_url && bool_decide (full_url ∉ menu_links)
                      then links ∪ {[(url, full_url)]} else links)
                   (∅ : gset (string * string)) (find_all "a" true soup)))
    (fun e => print ("Error accessing " +:+ url +:+ ": " +:+ e);; mret ∅).

Definition save_state (visited_pages links_to_crawl : gset string) : IO unit :=
  fun w => (Ok tt, {| log := log w; state_file := Some (visited_pages, links_to_crawl) |}).

Definition load_state : IO (gset string * gset string) :=
  fun w => (Ok (default (∅, ∅) (state_file w)), w).

Section Run.
Variables (start_url base_url csv_filename : string) (record_only_broken : bool).

(** [if not record_only_broken or status == "Broken": writer.writerow(row)] *)
Definition write_filtered (source_page link_url status : string) : IO unit :=
  if negb record_only_broken || String.eqb status "Broken"
  then emit (WriteRow csv_filename [source_page; link_url; status])
  else mret tt.

(** Lines 103-106: the body of [for menu_link in menu_links]. *)
Definition check_menu_link (menu_link : string)
    (menu_results : list (string * string * string))
  : IO (list (string * string * string)) :=
  status ← check_link menu_link;
  let menu_results := menu_results ++ [(start_url, menu_link, status)] in
  print (status +:+ ": " +:+ menu_link +:+ " (found in menu on "
         +:+ start_url +:+ ")");;
  mret menu_results.

(** Lines 111-113: the body of [for result in menu_results]. *)
Definition write_menu_result (result : string * string * string) (_ : unit)
  : IO unit :=
  let '(source_page, link_url, status) := result in
  write_filtered source_page link_url status.

(** Lines 92-118: load the state, seed the frontier, run the menu pass. *)
Definition crawl_init (order : set_order string) : IO (crawl_vars * gset string) :=
  '(visited, loaded) ← load_state;
  let frontier :=
    if bool_decide (visited = ∅) && bool_decide (loaded = ∅)
    then loaded ∪ {[start_url]} else loaded in
  menu_links ←
    (if bool_decide (visited = ∅) then
       menu_links ← extract_menu_links start_url;
       menu_results ← for_each (order menu_links) check_menu_link [];
       emit (WriteRow csv_filename header_row);;
       for_each menu_results write_menu_result tt;;
       mret menu_links
     else mret ∅);
  mret ({| visited_pages := visited;
           links_to_crawl := frontier;
           count_links := 0 |}, menu_links).

(** Lines 132-145: the body of [for source_page, link_url in page_links]. *)
Definition check_body_link (link : string * string) (v : crawl_vars) : IO crawl_vars :=
  let '(source_page, link_url) := link in
  if String.prefix blocklist_prefix link_url then mret v
  else
    status ← check_link link_url;
    let count := (count_links v + 1)%nat in
    print (status +:+ ": " +:+ link_url +:+ " (found on " +:+ source_page +:+ ")");;
    write_filtered source_page link_url status;;
    mret {| visited_pages := visited_pages v;
            links_to_crawl :=
              if is_same_or_subpath link_url base_url
                 && bool_decide (link_url ∉ visited_pages v)
              then links_to_crawl v ∪ {[link_url]} else links_to_crawl v;
            count_links := count |}.

(** Lines 121-148: one turn of the [while] loop, [current_page] being
    the element [links_to_crawl.pop()] returned. *)
Definition crawl_iteration (order : set_order (string * string))
    (menu_links : gset string) (current_page : string) (v : crawl_vars)
  : IO crawl_vars :=
  let popped := links_to_crawl v ∖ {[current_page]} in
  if bool_decide (current_page ∉ visited_pages v)
     && is_same_or_subpath current_page base_url
  then
    let visited := visited_pages v ∪ {[current_page]} in
    print ("Crawling and checking links on: " +:+ current_page);;
    page_links ← get_body_links current_page base_url menu_links;
    v' ← for_each (order page_links) check_body_link
           {| visited_pages := visited;
              links_to_crawl := popped;
              count_links := count_links v |};
    save_state (visited_pages v') (links_to_crawl v');;
    mret v'
  else
    mret {| visited_pages := visited_pages v;
            links_to_crawl := popped;
            count_links := count_links v |}.

(** [while links_to_crawl:] one turn, for any element [pop] may return
    and any order the page's link set may be iterated in. *)
Inductive crawl_step (menu_links : gset string)
  : relation (crawl_vars * world) :=
| crawl_step_pop order current_page v w v' w' :
    current_page ∈ links_to_crawl v →
    crawl_iteration order menu_links current_page v w = (Ok v', w') →
    crawl_step menu_links (v, w) (v', w').

(** The states a run of [crawl_website] started in [w0] passes through
    at the head of its [while] loop. *)
Definition crawl_reaches (w0 : world) (c : crawl_vars * world) : Prop :=
  ∃ order v0 menu_links w1,
    crawl_init order w0 = (Ok (v0, menu_links), w1)
    ∧ rtc (crawl_step menu_links) (v0, w1) c.

(** Line 150, once the loop has ended. *)
Definition print_total (v : crawl_vars) : IO unit :=
  print ("Total number of links checked: " +:+ pretty (count_links v)).

(** The loop run on a given sequence of pops and one iteration order;
    it stops early at a pop the frontier cannot produce. *)
Fixpoint crawl_loop (order : set_order (string * string))
    (menu_links : gset string) (pops : list string) (v : crawl_vars)
  : IO crawl_vars :=
  match pops with
  | [] => mret v
  | current_page :: pops' =>
      if bool_decide (current_page ∈ links_to_crawl v)
      then v' ← crawl_iteration order menu_links current_page v;
           crawl_loop order menu_links pops' v'
      else mret v
  end.

(** A run up to the head of its loop after the given pops. *)
Definition crawl_run (menu_order : set_order string)
    (order : set_order (string * string)) (pops : list string)
  : IO crawl_vars :=
  '(v, menu_links) ← crawl_init menu_order;
  crawl_loop order menu_links pops v.

(** [crawl_website] on given choices; [true] when the loop ended with
    an empty frontier and the total was printed. *)
Definition crawl_website (menu_order : set_order string)
    (order : set_order (string * string)) (pops : list string) : IO bool :=
  v ← crawl_run menu_order order pops;
  if bool_decide (links_to_crawl v = ∅)
  then print_total v;; mret true
  else mret false.

(** [crawl_website] returns, leaving the world [w']. *)
Definition crawl_returns (w0 w' : world) : Prop :=
  ∃ v w, crawl_reaches w0 (v, w)
         ∧ links_to_crawl v = ∅
         ∧ print_total v w = (Ok tt, w').

End Run.
End Crawler.

(** ** A small site to run the crawler on

    The start page has a navigation link to [/about] and body links to
    [/contact], which answers 404, and to another host. *)
Module Demo.
Definition page (code : Z) (body : string) : Response :=
  {| status_code := code;
     headers := {[ "Content-Type" := "text/html; charset=utf-8" ]};
     text := body |}.

Definition http (_ : list event) (url : string) (_ : option Z)
  : Response + string :=
  if String.eqb url "http://s/" then inl (page 200 "home")
  else if String.eqb url "http://s/about" then inl (page 200 "about")
  else if String.eqb url "http://s/contact" then inl (page 404 "not found")
  else if String.eqb url "https://external.example/" then inl (page 200 "other")
  else inr "connection refused".

Definition BeautifulSoup (text : string) : Tag :=
  if String.eqb text "home"
  then Elem "[document]" []
         [Elem "nav" [] [Elem "a" [("href", "/about")] []];
          Elem "p" [] [Elem "a" [("href", "/contact")] []];
          Elem "a" [("href", "https://external.example/")] []]
  else Elem "[document]" [] [].

Definition urljoin (base href : string) : string :=
  if String.prefix "/" href then "http://s" +:+ href else href.

Definition urlparse (url : string) : ParseResult :=
  if String.prefix "http://s/" url then {| scheme := "http"; netloc := "s" |}
  else if String.prefix "https://external.example/" url
       then {| scheme := "https"; netloc := "external.example" |}
       else {| scheme := ""; netloc := "" |}.

(** No state file, nothing done yet. *)
Definition fresh : world := {| log := []; state_file := None |}.

(** The state file of a crawl interrupted after the start page. *)
Definition resumed : world :=
  {| log := [];
     state_file := Some ({[ "http://s/" ]}, {[ "http://s/contact" ]}) |}.

(** The state file of a completed crawl. *)
Definition completed : world :=
  {| log := [];
     state_file := Some ({[ "http://s/"; "http://s/contact" ]}, ∅) |}.

(** The crawler on this site, started at and confined to [http://s/]. *)
Definition reaches (record_only_broken : bool)
  : world → crawl_vars * world → Prop :=
  crawl_reaches http BeautifulSoup urljoin urlparse
    "http://s/" "http://s/" "report.csv" record_only_broken.

Definition returns (record_only_broken : bool) : world → world → Prop :=
  crawl_returns http BeautifulSoup urljoin urlparse
    "http://s/" "http://s/" "report.csv" record_only_broken.

Definition run (record_only_broken : bool) (pops : list string)
  : IO crawl_vars :=
  crawl_run http BeautifulSoup urljoin urlparse
    "http://s/" "http://s/" "report.csv" record_only_broken
    (elements_order string) (elements_order (string * string)) pops.

Definition website (record_only_broken : bool) (pops : list string) : IO bool :=
  crawl_website http BeautifulSoup urljoin urlparse
    "http://s/" "http://s/" "report.csv" record_only_broken
    (elements_order string) (elements_order (string * string)) pops.

(** The loop variables and the world of a fresh broken-only run once
    the start page has been processed. *)
Definition vars_after_start : crawl_vars :=
  {| visited_pages := {[ "http://s/" ]};
     links_to_crawl := {[ "http://s/contact" ]};
     count_links := 2 |}.

Definition world_after_start : world :=
  {| log :=
       [Get "http://s/" None; Get "http://s/about" (Some 10);
        Print "Working: http://s/about (found in menu on http://s/)";
        WriteRow "report.csv" ["Source Page"; "Link URL"; "Status"];
        Print "Crawling and checking links on: http://s/";
        Get "http://s/" None; Get "https://external.example/" (Some 10);
        Print "Working: https://external.example/ (found on http://s/)";
        Get "http://s/contact" (Some 10);
        Print "Broken: http://s/contact (found on http://s/)";
        WriteRow "report.csv" ["http://s/"; "http://s/contact"; "Broken"]];
     state_file := Some ({[ "http://s/" ]}, {[ "http://s/contact" ]}) |}.


(** The same point of a fresh run that records every link. *)
Definition world_after_start_unfiltered : world :=
  {| log :=
       [Get "http://s/" None; Get "http://s/about" (Some 10);
        Print "Working: http://s/about (found in menu on http://s/)";
        WriteRow "report.csv" ["Source Page"; "Link URL"; "Status"];
        WriteRow "report.csv" ["http://s/"; "http://s/about"; "Working"];
        Print "Crawling and checking links on: http://s/";
        Get "http://s/" None; Get "https://external.example/" (Some 10);
        Print "Working: https://external.example/ (found on http://s/)";
        WriteRow "report.csv"
          ["http://s/"; "https://external.example/"; "Working"];
        Get "http://s/contact" (Some 10);
        Print "Broken: http://s/contact (found on http://s/)";
        WriteRow "report.csv" ["http://s/"; "http://s/contact"; "Broken"]];
     state_file := Some ({[ "http://s/" ]}, {[ "http://s/contact" ]}) |}.
End Demo.

(** ** Observations on the log *)

(** The page a "now visiting" line announces. *)
Definition visiting (e : event) : option string :=
  match e with
  | Print line => strip_prefix "Crawling and checking links on: " line
  | _ => None
  end.

(** The pages visited, in order, according to a log. *)
Definition visits (t : list event) : list string := omap visiting t.

(** The rows appended to the report, in order. *)
Definition rows (t : list event) : list (list string) :=
  omap (fun e => match e with WriteRow _ row => Some row | _ => None end) t.

Definition is_row (e : event) : Prop :=
  match e with WriteRow _ _ => True | _ => False end.

(** The links verified: only [check_link] fetches with a timeout. *)
Definition link_checks (t : list event) : list string :=
  omap (fun e => match e with Get url (Some _) => Some url | _ => None end) t.

(** The pages fetched for their links: the GETs issued without a timeout. *)
Definition page_fetches (t : list event) : list string :=
  omap (fun e => match e with Get url None => Some url | _ => None end) t.

(** The link column of a report row. *)
Definition row_link (row : list string) : option string := row !! 1%nat.

Definition is_fetch (e : event) : Prop :=
  match e with Get _ _ => True | _ => False end.

(** The events one turn of the crawl loop may add after its "now visiting"
    line, and the menu pass around its header row: fetches, status and
    error lines, and report rows that passed the filter. *)
Inductive body_event (record_only_broken : bool) (csv_filename : string)
  : event → Prop :=
| body_get url timeout :
    body_event record_only_broken csv_filename (Get url timeout)
| body_status status rest :
    status = "Working" ∨ status = "Broken" →
    body_event record_only_broken csv_filename (Print (status +:+ ": " +:+ rest))
| body_error rest :
    body_event record_only_broken csv_filename (Print ("Error accessing " +:+ rest))
| body_row source_page link_url status :
    status = "Working" ∨ status = "Broken" →
    (record_only_broken = true → status = "Broken") →
    body_event record_only_broken csv_filename
      (WriteRow csv_filename [source_page; link_url; status]).

(** The events of the turns of the crawl loop that take the visited set
    from [visited] to [visited']: each turn that processes a page [p], new
    to the visited set, prints its "now visiting" line, fetches [p] and
    then checks its links; the other turns leave no event. *)
Inductive loop_trace (record_only_broken : bool) (csv_filename : string)
  (visited : gset string) : list event → gset string → Prop :=
| loop_trace_nil : loop_trace record_only_broken csv_filename visited [] visited
| loop_trace_visit evs visited' p body :
    loop_trace record_only_broken csv_filename visited evs visited' →
    p ∉ visited' →
    Forall (body_event record_only_broken csv_filename) body →
    loop_trace record_only_broken csv_filename visited
      (evs ++ Print ("Crawling and checking links on: " +:+ p)
           :: Get p None :: body)
      (visited' ∪ {[p]}).

Definition status_ok (result : string * string * string) : Prop :=
  result.2 = "Working" ∨ result.2 = "Broken".

(** What the state file holds at the start of a run. *)
Definition loaded_visited (w : world) : gset string :=
  (default (∅, ∅) (state_file w)).1.
Definition loaded_frontier (w : world) : gset string :=
  (default (∅, ∅) (state_file w)).2.

(** What holds of the loop variables and of the events since the loop
    started with the variables [v0] in the world [w1]. *)
Definition loop_account (urlparse : string → ParseResult) (base_url : string)
    (record_only_broken : bool) (menu_links : gset string)
    (v0 : crawl_vars) (w1 : world) (c : crawl_vars * world) : Prop :=
  ∃ evs,
    log c.2 = log w1 ++ evs
    ∧ page_fetches evs = visits evs
    ∧ (∀ p, p ∈ visits evs →
            is_same_or_subpath p base_url = true
            ∧ (p ∈ links_to_crawl v0
               ∨ (is_valid_url urlparse p = true ∧ p ∉ menu_links)))
    ∧ count_links c.1 = (count_links v0 + length (link_checks evs))%nat
    ∧ (∀ l, l ∈ link_checks evs →
            (l ∉ menu_links) ∧ String.prefix blocklist_prefix l = false)
    ∧ (record_only_broken = false →
       row_link <$> rows evs = Some <$> link_checks evs)
    ∧ (∀ l, l ∈ links_to_crawl c.1 →
            l ∈ links_to_crawl v0
            ∨ (is_same_or_subpath l base_url = true
               ∧ is_valid_url urlparse l = true
               ∧ (l ∉ menu_links)
               ∧ String.prefix blocklist_prefix l = false)).

(** The visited set in memory is the one on disk, and the frontier in
    memory is within the one a restart would load. *)
Definition restart_safe (start_url : string) (c : crawl_vars * world) : Prop :=
  visited_pages c.1 = loaded_visited c.2
  ∧ links_to_crawl c.1
    ⊆ (if bool_decide (loaded_visited c.2 = ∅)
          && bool_decide (loaded_frontier c.2 = ∅)
       then loaded_frontier c.2 ∪ {[start_url]} else loaded_frontier c.2).

(** No turn from here will drop its page: the frontier holds only unvisited
    pages in scope, something is visited or still to visit, and once a
    page has been visited the state file holds the loop variables. *)
Definition tidy (base_url : string) (c : crawl_vars * world) : Prop :=
  links_to_crawl c.1 ## visited_pages c.1
  ∧ (∀ l, l ∈ links_to_crawl c.1 → is_same_or_subpath l base_url = true)
  ∧ (visited_pages c.1 = ∅ → links_to_crawl c.1 ≠ ∅)
  ∧ (visited_pages c.1 ≠ ∅ →
     state_file c.2 = Some (visited_pages c.1, links_to_crawl c.1)).


Ltac io_unfold := unfold mbind, io_bind, mret, io_ret, print, emit in *.

(** ** The log: what the event classes can and cannot contain *)

Lemma strip_prefix_app p line : strip_prefix p (p +:+ line) = Some line.
Proof.
  induction p as [|a p IH]; simpl; [by destruct line|].
  by rewrite Ascii.eqb_refl.
Qed.

Lemma visiting_line p :
  visiting (Print ("Crawling and checking links on: " +:+ p)) = Some p.
Proof. apply strip_prefix_app. Qed.

Lemma body_event_not_visiting rob csv e : body_event rob csv e → visiting e = None.
Proof. by intros [| ? ? [-> | ->] | |]. Qed.

Lemma body_event_not_header rob csv e file :
  body_event rob csv e → e ≠ WriteRow file header_row.
Proof. intros [| | |? ? ? [-> | ->]]; by intros [=]. Qed.

Lemma body_event_row rob csv e file row :
  body_event rob csv e → e = WriteRow file row →
  file = csv
  ∧ ∃ source_page link_url status,
      row = [source_page; link_url; status]
      ∧ (status = "Working" ∨ status = "Broken")
      ∧ (rob = true → status = "Broken").
Proof.
  intros [| | |src l st Hst Hrob] Heq; inversion Heq; subst. eauto 10.
Qed.

Lemma visits_app t1 t2 : visits (t1 ++ t2) = visits t1 ++ visits t2.
Proof. apply omap_app. Qed.

Lemma visits_cons e t :
  visits (e :: t)
  = match visiting e with Some p => p :: visits t | None => visits t end.
Proof. reflexivity. Qed.

Lemma visits_body rob csv evs : Forall (body_event rob csv) evs → visits evs = [].
Proof.
  induction 1 as [|e evs He _ IH]; [done|].
  by rewrite visits_cons, (body_event_not_visiting _ _ _ He).
Qed.

Lemma loop_trace_visits rob csv visited evs visited' :
  loop_trace rob csv visited evs visited' →
  NoDup (visits evs)
  ∧ visited' = visited ∪ list_to_set (visits evs)
  ∧ ∀ p, p ∈ visits evs → p ∉ visited.
Proof.
  induction 1 as [|evs visited' p body _ (Hnodup & -> & Hnew) Hp Hbody].
  - split_and!; [constructor|set_solver..].
  - assert (visits (evs ++ Print ("Crawling and checking links on: " +:+ p)
                        :: Get p None :: body) = visits evs ++ [p]) as ->.
    { rewrite visits_app, visits_cons, visiting_line, visits_cons.
      simpl. by rewrite (visits_body _ _ _ Hbody). }
    split_and!.
    + apply NoDup_app. split_and!; [done| |apply NoDup_singleton].
      intros q Hq ->%list_elem_of_singleton. set_solver.
    + rewrite list_to_set_app_L. set_solver.
    + intros q [Hq| ->%list_elem_of_singleton]%elem_of_app; [by apply Hnew|].
      set_solver.
Qed.

Lemma loop_trace_events rob csv visited evs visited' :
  loop_trace rob csv visited evs visited' →
  Forall (fun e => body_event rob csv e
                   ∨ ∃ p, e = Print ("Crawling and checking links on: " +:+ p))
         evs.
Proof.
  induction 1 as [|evs visited' p body _ IH Hp Hbody]; [constructor|].
  apply Forall_app. split; [done|].
  constructor; [right; by exists p|].
  constructor; [left; constructor|].
  eapply Forall_impl; [exact Hbody|]. by left.
Qed.

Lemma rows_app t1 t2 : rows (t1 ++ t2) = rows t1 ++ rows t2.
Proof. apply omap_app. Qed.

Lemma rows_no_row t : Forall (fun e => ¬ is_row e) t → rows t = [].
Proof.
  induction 1 as [|e t He _ IH]; [done|].
  destruct e; simpl in *; done.
Qed.

Lemma elem_of_rows row t : row ∈ rows t ↔ ∃ file, WriteRow file row ∈ t.
Proof.
  unfold rows. rewrite list_elem_of_omap. split.
  - intros ([] & Hin & Hrow); simplify_eq. eauto.
  - intros [file Hin]. by exists (WriteRow file row).
Qed.

(** ** The operations, one call at a time *)

Lemma add_events_app w evs1 evs2 :
  add_events (add_events w evs1) evs2 = add_events w (evs1 ++ evs2).
Proof. unfold add_events; simpl. by rewrite app_assoc. Qed.

Lemma for_each_cons {A S} (x : A) xs (body : A → S → IO S) acc w :
  for_each (x :: xs) body acc w
  = match body x acc w with
    | (Ok acc', w') => for_each xs body acc' w'
    | (Raise e, w') => (Raise e, w')
    end.
Proof. reflexivity. Qed.

Lemma add_events_nil w : add_events w [] = w.
Proof. destruct w. unfold add_events; simpl. by rewrite app_nil_r. Qed.

Section Properties.
Variable http : list event → string → option Z → Response + string.
Variable BeautifulSoup : string → Tag.
Variable urljoin : string → string → string.
Variable urlparse : string → ParseResult.

Local Abbreviation check_link := (check_link http).
Local Abbreviation extract_menu_links :=
  (extract_menu_links http BeautifulSoup urljoin urlparse).
Local Abbreviation get_body_links :=
  (get_body_links http BeautifulSoup urljoin urlparse).

Lemma check_link_run url w :
  ∃ status,
    check_link url w = (Ok status, add_events w [Get url (Some 10)])
    ∧ (status = "Working" ∨ status = "Broken")
    ∧ (status = "Working"
       ↔ ∃ r, http (log w) url (Some 10) = inl r ∧ status_code r = 200).
Proof.
  unfold check_link, try_except, requests_get. io_unfold.
  unfold add_events.
  destruct (http (log w) url (Some 10)) as [r|msg] eqn:Hget.
  - destruct (status_code r =? 200) eqn:Hcode.
    + exists "Working". split_and!; eauto. split; [|done].
      intros _. exists r. split; [done|]. by apply Z.eqb_eq.
    + exists "Broken". split_and!; eauto. split; [done|].
      intros (r' & [= <-] & Hr'). apply Z.eqb_neq in Hcode. done.
  - exists "Broken". split_and!; eauto. split; [done|].
    intros (r & ? & _). done.
Qed.

Lemma extract_menu_links_run url w :
  ∃ links evs,
    extract_menu_links url w = (Ok links, add_events w (Get url None :: evs))
    ∧ match http (log w) url None with
      | inl r => evs = [] ∧ (is_html r = false → links = ∅)
      | inr msg => evs = [Print ("Error accessing " +:+ url +:+ ": " +:+ msg)]
                   ∧ links = ∅
      end.
Proof.
  unfold extract_menu_links, try_except, requests_get. io_unfold.
  destruct (http (log w) url None) as [r|msg] eqn:Hget; simpl.
  - destruct (is_html r) eqn:Hhtml; simpl; eexists _, [];
      (split; [reflexivity|]); split; done.
  - eexists ∅, [_]. rewrite add_events_app. eauto.
Qed.

Lemma get_body_links_run url base_url menu_links w :
  ∃ links evs,
    get_body_links url base_url menu_links w
      = (Ok links, add_events w (Get url None :: evs))
    ∧ match http (log w) url None with
      | inl r => evs = [] ∧ (is_html r = false → links = ∅)
      | inr msg => evs = [Print ("Error accessing " +:+ url +:+ ": " +:+ msg)]
                   ∧ links = ∅
      end.
Proof.
  unfold get_body_links, try_except, requests_get. io_unfold.
  destruct (http (log w) url None) as [r|msg] eqn:Hget; simpl.
  - destruct (is_html r) eqn:Hhtml; simpl; eexists _, [];
      (split; [reflexivity|]); split; done.
  - eexists ∅, [_]. rewrite add_events_app. eauto.
Qed.


(** C5 (as the code has it). Only [check_link] passes [timeout=10]; the
    page fetches of [extract_menu_links] and [get_body_links] are issued
    with no timeout at all. *)
Theorem page_fetches_carry_no_timeout url base_url menu_links w :
  log (check_link url w).2 = log w ++ [Get url (Some 10)]
  ∧ (∃ evs, log (extract_menu_links url w).2 = log w ++ Get url None :: evs)
  ∧ (∃ evs, log (get_body_links url base_url menu_links w).2
            = log w ++ Get url None :: evs).
Proof.
  split_and!.
  - destruct (check_link_run url w) as (? & -> & _). done.
  - destruct (extract_menu_links_run url w) as (? & evs & -> & _). by exists evs.
  - destruct (get_body_links_run url base_url menu_links w) as (? & evs & -> & _).
    by exists evs.
Qed.

(** C9. When the page fetch fails with a transport error, or the
    response is not HTML, [extract_menu_links] and [get_body_links]
    both return the empty set and do not raise. *)
Theorem extractors_empty_on_failure url base_url menu_links w :
  (∃ msg, http (log w) url None = inr msg)
  ∨ (∃ r, http (log w) url None = inl r ∧ is_html r = false) →
  (∃ w', extract_menu_links url w = (Ok ∅, w'))
  ∧ (∃ w', get_body_links url base_url menu_links w = (Ok ∅, w')).
Proof.
  intros Hfail. split.
  - destruct (extract_menu_links_run url w) as (links & evs & Hrun & Hget).
    rewrite Hrun.
    destruct Hfail as [[msg Hmsg]|(r & Hr & Hhtml)].
    + rewrite Hmsg in Hget. destruct Hget as [_ ->]; eauto.
    + rewrite Hr in Hget. destruct Hget as [_ ->]; eauto.
  - destruct (get_body_links_run url base_url menu_links w)
      as (links & evs & Hrun & Hget).
    rewrite Hrun.
    destruct Hfail as [[msg Hmsg]|(r & Hr & Hhtml)].
    + rewrite Hmsg in Hget. destruct Hget as [_ ->]; eauto.
    + rewrite Hr in Hget. destruct Hget as [_ ->]; eauto.
Qed.

(** C10. [get_body_links] ignores its [base_url] argument: two calls
    that differ only in it behave the same in every world. *)
Theorem get_body_links_ignores_base_url url b1 b2 menu_links w :
  get_body_links url b1 menu_links w = get_body_links url b2 menu_links w.
Proof. reflexivity. Qed.

(** *** One turn of the crawl loop *)

Variables (start_url base_url csv_filename : string) (record_only_broken : bool).

Local Abbreviation write_filtered :=
  (write_filtered csv_filename record_only_broken).
Local Abbreviation check_body_link :=
  (check_body_link http base_url csv_filename record_only_broken).
Local Abbreviation crawl_iteration :=
  (crawl_iteration http BeautifulSoup urljoin urlparse
     base_url csv_filename record_only_broken).
Local Abbreviation crawl_init :=
  (crawl_init http BeautifulSoup urljoin urlparse
     start_url csv_filename record_only_broken).
Local Abbreviation crawl_step :=
  (crawl_step http BeautifulSoup urljoin urlparse
     base_url csv_filename record_only_broken).
Local Abbreviation crawl_reaches :=
  (crawl_reaches http BeautifulSoup urljoin urlparse
     start_url base_url csv_filename record_only_broken).
Local Abbreviation crawl_returns :=
  (crawl_returns http BeautifulSoup urljoin urlparse
     start_url base_url csv_filename record_only_broken).
Local Abbreviation body_event := (body_event record_only_broken csv_filename).

Lemma write_filtered_run source_page link_url status w :
  status = "Working" ∨ status = "Broken" →
  ∃ evs,
    write_filtered source_page link_url status w = (Ok tt, add_events w evs)
    ∧ Forall body_event evs ∧ Forall is_row evs.
Proof.
  intros Hstatus. unfold write_filtered.
  destruct (negb record_only_broken || String.eqb status "Broken") eqn:Hkeep.
  - eexists [_]. split; [reflexivity|].
    split; (constructor; [|constructor]); [|exact I].
    constructor; [done|]. intros ->. simpl in Hkeep.
    by apply String.eqb_eq.
  - exists []. rewrite add_events_nil. split; [done|]. split; constructor.
Qed.

Lemma check_body_link_run source_page link_url v w :
  ∃ v' evs,
    check_body_link (source_page, link_url) v w = (Ok v', add_events w evs)
    ∧ Forall body_event evs
    ∧ visited_pages v' = visited_pages v
    ∧ if String.prefix blocklist_prefix link_url
      then v' = v ∧ evs = []
      else Get link_url (Some 10) ∈ evs
           ∧ count_links v' = S (count_links v)
           ∧ links_to_crawl v' =
               if is_same_or_subpath link_url base_url
                  && bool_decide (link_url ∉ visited_pages v)
               then links_to_crawl v ∪ {[link_url]} else links_to_crawl v.
Proof.
  unfold check_body_link.
  destruct (String.prefix blocklist_prefix link_url).
  { exists v, []. rewrite add_events_nil. split_and!; [done|constructor|done..]. }
  destruct (check_link_run link_url w) as (status & Hcheck & Hstatus & _).
  set (w1 := add_events w [Get link_url (Some 10)]) in *.
  set (line := status +:+ ": " +:+ link_url +:+ " (found on " +:+ source_page +:+ ")").
  destruct (write_filtered_run source_page link_url status
              (add_events w1 [Print line]) Hstatus)
    as (evs & Hwrite & Hevs & _).
  eexists _, (Get link_url (Some 10) :: Print line :: evs).
  io_unfold. rewrite Hcheck. fold line. rewrite Hwrite.
  unfold w1. rewrite !add_events_app. simpl.
  split; [reflexivity|]. split_and!; simpl.
  - constructor; [constructor|]. constructor; [by constructor|done].
  - done.
  - by left.
  - by rewrite Nat.add_1_r.
  - done.
Qed.

(** The whole [for source_page, link_url in page_links] loop. *)
Lemma check_body_links_run (links : list (string * string)) v w :
  ∃ v' evs,
    for_each links check_body_link v w = (Ok v', add_events w evs)
    ∧ Forall body_event evs
    ∧ visited_pages v' = visited_pages v
    ∧ (∀ source_page link_url,
         (source_page, link_url) ∈ links →
         String.prefix blocklist_prefix link_url = false →
         Get link_url (Some 10) ∈ evs)
    ∧ (∀ link_url,
         link_url ∈ links_to_crawl v'
         ↔ link_url ∈ links_to_crawl v
           ∨ ∃ source_page,
               (source_page, link_url) ∈ links
               ∧ String.prefix blocklist_prefix link_url = false
               ∧ is_same_or_subpath link_url base_url = true
               ∧ link_url ∉ visited_pages v).
Proof.
  revert v w. induction links as [|[source_page link_url] links IH]; intros v w.
  - exists v, []. simpl. rewrite add_events_nil.
    split_and!; [done|constructor|done|..].
    + intros ?? Hin. by apply elem_of_nil in Hin.
    + intros l. split; [by left|]. intros [?|(? & Hin & _)]; [done|].
      by apply elem_of_nil in Hin.
  - destruct (check_body_link_run source_page link_url v w)
      as (v1 & evs1 & Hrun1 & Hevs1 & Hvis1 & Hlink).
    destruct (IH v1 (add_events w evs1))
      as (v2 & evs2 & Hrun2 & Hevs2 & Hvis2 & Hget2 & Hfront2).
    exists v2, (evs1 ++ evs2).
    rewrite for_each_cons, Hrun1, Hrun2, add_events_app.
    split_and!; [done|by apply Forall_app|congruence|..].
    + intros src l [[= -> ->]|Hin]%elem_of_cons Hblock.
      * rewrite Hblock in Hlink. apply elem_of_app. left. apply Hlink.
      * apply elem_of_app. right. eauto.
    + intros l. rewrite Hfront2, Hvis1.
      destruct (String.prefix blocklist_prefix link_url) eqn:Hblock.
      * destruct Hlink as [-> _]. split.
        -- intros [?|(src & Hin & ?)]; [by left|]. right. exists src.
           split; [by right|done].
        -- intros [?|(src & [[= -> ->]|Hin]%elem_of_cons & Hb & ?)];
             [by left|congruence|]. right. by exists src.
      * destruct Hlink as (_ & _ & ->).
        destruct (is_same_or_subpath link_url base_url) eqn:Hscope; simpl.
        -- case_bool_decide as Hnew.
           ++ rewrite elem_of_union, elem_of_singleton. split.
              ** intros [[?| ->]|(src & Hin & ?)].
                 --- by left.
                 --- right. exists source_page. split; [by left|done].
                 --- right. exists src. split; [by right|done].
              ** intros [?|(src & [[= -> ->]|Hin]%elem_of_cons & ?)].
                 --- by left; left.
                 --- by left; right.
                 --- right. by exists src.
           ++ split.
              ** intros [?|(src & Hin & ?)]; [by left|]. right. exists src.
                 split; [by right|done].
              ** intros [?|(src & [[= -> ->]|Hin]%elem_of_cons & ? & ? & ?)];
                   [by left|done|]. right. by exists src.
        -- split.
           ++ intros [?|(src & Hin & ?)]; [by left|]. right. exists src.
              split; [by right|done].
           ++ intros [?|(src & [[= -> ->]|Hin]%elem_of_cons & ? & ? & ?)];
                [by left|congruence|]. right. by exists src.
Qed.

Lemma crawl_iteration_run order menu_links current_page v w :
  ∃ v' w' evs,
    crawl_iteration order menu_links current_page v w = (Ok v', w')
    ∧ log w' = log w ++ evs
    ∧ if bool_decide (current_page ∉ visited_pages v)
         && is_same_or_subpath current_page base_url
      then
        ∃ page_links w1 evs',
          get_body_links current_page base_url menu_links
            (add_events w [Print ("Crawling and checking links on: "
                                  +:+ current_page)])
          = (Ok page_links, w1)
          ∧ evs = Print ("Crawling and checking links on: " +:+ current_page)
                  :: Get current_page None :: evs'
          ∧ Forall body_event evs'
          ∧ visited_pages v' = visited_pages v ∪ {[current_page]}
          ∧ (∀ source_page link_url,
               (source_page, link_url) ∈ page_links →
               String.prefix blocklist_prefix link_url = false →
               Get link_url (Some 10) ∈ evs')
          ∧ (∀ link_url,
               link_url ∈ links_to_crawl v'
               ↔ (link_url ∈ links_to_crawl v ∧ link_url ≠ current_page)
                 ∨ ∃ source_page,
                     (source_page, link_url) ∈ page_links
                     ∧ String.prefix blocklist_prefix link_url = false
                     ∧ is_same_or_subpath link_url base_url = true
                     ∧ link_url ∉ visited_pages v ∪ {[current_page]})
          ∧ state_file w' = Some (visited_pages v', links_to_crawl v')
      else
        evs = [] ∧ w' = w
        ∧ visited_pages v' = visited_pages v
        ∧ links_to_crawl v' = links_to_crawl v ∖ {[current_page]}
        ∧ count_links v' = count_links v.
Proof.
  unfold crawl_iteration.
  destruct (bool_decide (current_page ∉ visited_pages v)
            && is_same_or_subpath current_page base_url).
  2:{ eexists _, w, []. rewrite app_nil_r. by split_and!. }
  set (line := "Crawling and checking links on: " +:+ current_page).
  destruct (get_body_links_run current_page base_url menu_links
              (add_events w [Print line]))
    as (page_links & evs0 & Hget & Hevs0).
  destruct (check_body_links_run (order page_links)
              {| visited_pages := visited_pages v ∪ {[current_page]};
                 links_to_crawl := links_to_crawl v ∖ {[current_page]};
                 count_links := count_links v |}
              (add_events (add_events w [Print line])
                          (Get current_page None :: evs0)))
    as (v2 & evs2 & Hloop & Hevs2 & Hvis2 & Hchecked & Hfront).
  io_unfold. fold line. rewrite Hget, Hloop. unfold save_state.
  eexists v2, _, (Print line :: Get current_page None :: evs0 ++ evs2).
  split; [reflexivity|]. simpl in *.
  split. { by rewrite <- !app_assoc. }
  exists page_links, (add_events (add_events w [Print line])
                        (Get current_page None :: evs0)), (evs0 ++ evs2).
  split_and!; [done..| | | | |done].
  - apply Forall_app. split; [|done].
    destruct (http _ _ _); destruct Hevs0 as [-> _]; repeat constructor.
  - done.
  - intros src l Hin Hblock. apply elem_of_app. right.
    apply (Hchecked src l); [|done].
    rewrite (enum_perm order page_links). by apply elem_of_elements.
  - intros l. rewrite Hfront. simpl.
    rewrite elem_of_difference, elem_of_singleton.
    split; (intros [?|(src & Hin & ?)]; [by left|right; exists src]).
    + split; [|done]. rewrite (enum_perm order page_links) in Hin.
      by apply elem_of_elements in Hin.
    + split; [|done]. rewrite (enum_perm order page_links).
      by apply elem_of_elements.
Qed.

(** *** The start of a run: state loading and the menu pass *)

Local Abbreviation check_menu_link := (check_menu_link http start_url).
Local Abbreviation write_menu_result :=
  (write_menu_result csv_filename record_only_broken).

Lemma check_menu_links_run (links : list string) results w :
  Forall status_ok results →
  ∃ results' evs,
    for_each links check_menu_link results w = (Ok results', add_events w evs)
    ∧ Forall body_event evs
    ∧ Forall (fun e => ¬ is_row e) evs
    ∧ Forall status_ok results'.
Proof.
  revert results w. induction links as [|link links IH]; intros results w Hres.
  - exists results, []. simpl. rewrite add_events_nil.
    split_and!; [done|constructor..|done].
  - destruct (check_link_run link w) as (status & Hcheck & Hstatus & _).
    set (line := status +:+ ": " +:+ link +:+ " (found in menu on "
                 +:+ start_url +:+ ")").
    destruct (IH (results ++ [(start_url, link, status)])
                (add_events w [Get link (Some 10); Print line]))
      as (results' & evs & Hrun & Hevs & Hnorow & Hres').
    { apply Forall_app. split; [done|]. by constructor. }
    exists results', (Get link (Some 10) :: Print line :: evs).
    rewrite for_each_cons. unfold check_menu_link at 1. io_unfold.
    rewrite Hcheck. fold line. rewrite add_events_app.
    change ([Get link (Some 10)] ++ [Print line])
      with [Get link (Some 10); Print line].
    rewrite Hrun, add_events_app.
    split_and!; [done| | |done].
    + constructor; [constructor|]. constructor; [by constructor|done].
    + constructor; [by intros []|]. constructor; [by intros []|done].
Qed.

Lemma write_menu_results_run (results : list (string * string * string)) w :
  Forall status_ok results →
  ∃ evs,
    for_each results write_menu_result tt w = (Ok tt, add_events w evs)
    ∧ Forall body_event evs ∧ Forall is_row evs.
Proof.
  revert w. induction results as [|[[src link] status] results IH];
    intros w Hres.
  - exists []. simpl. rewrite add_events_nil. split_and!; [done|constructor..].
  - apply Forall_cons in Hres as [Hstatus Hres].
    destruct (write_filtered_run src link status w Hstatus)
      as (evs1 & Hrun1 & Hevs1 & Hrows1).
    destruct (IH (add_events w evs1) Hres) as (evs2 & Hrun2 & Hevs2 & Hrows2).
    exists (evs1 ++ evs2). rewrite for_each_cons.
    unfold write_menu_result at 1. rewrite Hrun1, Hrun2, add_events_app.
    split_and!; [done|by apply Forall_app..].
Qed.

Lemma crawl_init_run order w0 :
  ∃ menu_links evs,
    crawl_init order w0
    = (Ok ({| visited_pages := loaded_visited w0;
              links_to_crawl :=
                if bool_decide (loaded_visited w0 = ∅)
                   && bool_decide (loaded_frontier w0 = ∅)
                then loaded_frontier w0 ∪ {[start_url]}
                else loaded_frontier w0;
              count_links := 0%nat |}, menu_links),
       add_events w0 evs)
    ∧ if bool_decide (loaded_visited w0 = ∅)
      then ∃ pre post,
             evs = pre ++ WriteRow csv_filename header_row :: post
             ∧ Forall body_event pre
             ∧ Forall (fun e => ¬ is_row e) pre
             ∧ Forall body_event post
             ∧ Forall is_row post
      else evs = [] ∧ menu_links = ∅.
Proof.
  unfold crawl_init, load_state, loaded_visited, loaded_frontier.
  io_unfold.
  destruct (default (∅, ∅) (state_file w0)) as [visited loaded]; simpl.
  destruct (bool_decide (visited = ∅)).
  2:{ exists ∅, []. by rewrite add_events_nil. }
  destruct (extract_menu_links_run start_url w0)
    as (menu_links & evs0 & Hmenu & Hevs0).
  destruct (check_menu_links_run (order menu_links) []
              (add_events w0 (Get start_url None :: evs0)))
    as (results & evs1 & Hcheck & Hevs1 & Hnorow1 & Hres); [constructor|].
  destruct (write_menu_results_run results
              (add_events (add_events (add_events w0 (Get start_url None :: evs0))
                                      evs1)
                          [WriteRow csv_filename header_row]) Hres)
    as (evs2 & Hwrite & Hevs2 & Hrows2).
  rewrite Hmenu, Hcheck, Hwrite. rewrite !add_events_app.
  exists menu_links, ((Get start_url None :: evs0) ++ evs1
                      ++ [WriteRow csv_filename header_row] ++ evs2).
  split; [done|].
  exists ((Get start_url None :: evs0) ++ evs1), evs2.
  split. { by rewrite <- !app_assoc. }
  assert (Forall body_event evs0 ∧ Forall (fun e => ¬ is_row e) evs0) as [??].
  { destruct (http _ _ _); destruct Hevs0 as [-> _]; split;
      repeat constructor; by intros []. }
  split_and!; [| |done..].
  - apply Forall_app. split; [|done]. constructor; [constructor|done].
  - apply Forall_app. split; [|done]. constructor; [by intros []|done].
Qed.

(** *** Whole runs *)

Lemma crawl_step_trace menu_links v w v' w' :
  crawl_step menu_links (v, w) (v', w') →
  ∃ evs,
    log w' = log w ++ evs
    ∧ ((evs = [] ∧ visited_pages v' = visited_pages v)
       ∨ ∃ p body,
           (p ∉ visited_pages v)
           ∧ visited_pages v' = visited_pages v ∪ {[p]}
           ∧ evs = Print ("Crawling and checking links on: " +:+ p)
                   :: Get p None :: body
           ∧ Forall body_event body).
Proof.
  inversion 1 as [order p ? ? ? ? Hin Hiter]; subst.
  destruct (crawl_iteration_run order menu_links p v w)
    as (v2 & w2 & evs & Hrun & Hlog & Hcases).
  rewrite Hrun in Hiter. simplify_eq. exists evs. split; [done|].
  destruct (bool_decide (p ∉ visited_pages v)) eqn:Hnew; simpl in Hcases.
  - destruct (is_same_or_subpath p base_url).
    + destruct Hcases as (? & ? & body & _ & -> & Hbody & Hvis & _).
      right. exists p, body. apply bool_decide_eq_true in Hnew. done.
    + left. by destruct Hcases as (-> & _ & -> & _).
  - left. by destruct Hcases as (-> & _ & -> & _).
Qed.

Lemma crawl_steps_trace menu_links v w c :
  rtc (crawl_step menu_links) (v, w) c →
  ∃ evs,
    log c.2 = log w ++ evs
    ∧ loop_trace record_only_broken csv_filename
        (visited_pages v) evs (visited_pages c.1).
Proof.
  revert c. apply rtc_ind_r.
  - exists []. simpl. rewrite app_nil_r. split; [done|constructor].
  - intros [v1 w1] [v2 w2] _ Hstep (evs & Hlog & Htrace). simpl in *.
    apply crawl_step_trace in Hstep as (evs' & Hlog' & Hcases).
    exists (evs ++ evs'). split. { by rewrite Hlog', Hlog, app_assoc. }
    destruct Hcases as [[-> ->]|(p & body & Hp & -> & -> & Hbody)].
    + by rewrite app_nil_r.
    + by constructor.
Qed.

(** The events of a run up to any point of its loop: those of the start
    (nothing when resuming with a non-empty visited set, else the menu
    checks, the header row, then the menu rows), then those of the loop. *)
Lemma crawl_reaches_trace w0 v w :
  crawl_reaches w0 (v, w) →
  ∃ init_evs loop_evs,
    log w = log w0 ++ init_evs ++ loop_evs
    ∧ loop_trace record_only_broken csv_filename
        (loaded_visited w0) loop_evs (visited_pages v)
    ∧ if bool_decide (loaded_visited w0 = ∅)
      then ∃ pre post,
             init_evs = pre ++ WriteRow csv_filename header_row :: post
             ∧ Forall body_event pre
             ∧ Forall (fun e => ¬ is_row e) pre
             ∧ Forall body_event post
      else init_evs = [].
Proof.
  intros (order & v0 & menu_links & w1 & Hinit & Hsteps).
  destruct (crawl_init_run order w0) as (menu' & init_evs & Hrun & Hshape).
  rewrite Hrun in Hinit. simplify_eq.
  apply crawl_steps_trace in Hsteps as (loop_evs & Hlog & Htrace).
  simpl in *. exists init_evs, loop_evs.
  split. { by rewrite Hlog, app_assoc. }
  split; [done|].
  destruct (bool_decide (loaded_visited w0 = ∅)).
  - destruct Hshape as (pre & post & ? & ? & ? & ? & _). by exists pre, post.
  - by destruct Hshape.
Qed.

(** C1. Up to any point of a run, the "now visiting" events name
    pairwise different pages, none of them visited before the run, and
    the visited set is the loaded one plus exactly these pages.  A turn
    of the loop never shrinks the visited set; a popped page that is
    already visited is dropped without any event; a page enters the set
    only in the turn that processes it, whose events start with its
    "now visiting" line and the fetch of its body links. *)
Theorem no_duplicate_visit w0 v w :
  crawl_reaches w0 (v, w) →
  (∃ evs,
     log w = log w0 ++ evs
     ∧ NoDup (visits evs)
     ∧ (∀ p, p ∈ visits evs → p ∉ loaded_visited w0)
     ∧ visited_pages v = loaded_visited w0 ∪ list_to_set (visits evs))
  ∧ ∀ order menu_links current_page,
      ∃ v' w' evs',
        crawl_iteration order menu_links current_page v w = (Ok v', w')
        ∧ log w' = log w ++ evs'
        ∧ visited_pages v ⊆ visited_pages v'
        ∧ (current_page ∈ visited_pages v →
           evs' = [] ∧ visited_pages v' = visited_pages v)
        ∧ (visited_pages v' ≠ visited_pages v →
           (current_page ∉ visited_pages v)
           ∧ visited_pages v' = visited_pages v ∪ {[current_page]}
           ∧ ∃ body,
               evs' = Print ("Crawling and checking links on: " +:+ current_page)
                      :: Get current_page None :: body
               ∧ visits body = []).
Proof.
  intros Hrun. split.
  - apply crawl_reaches_trace in Hrun
      as (init_evs & loop_evs & Hlog & Htrace & Hinit).
    apply loop_trace_visits in Htrace as (Hnodup & Hvis & Hnew).
    assert (visits init_evs = []) as Hquiet.
    { destruct (bool_decide (loaded_visited w0 = ∅)); [|by subst].
      destruct Hinit as (pre & post & -> & Hpre & _ & Hpost).
      rewrite visits_app, visits_cons. simpl.
      by rewrite (visits_body _ _ _ Hpre), (visits_body _ _ _ Hpost). }
    exists (init_evs ++ loop_evs). rewrite visits_app, Hquiet. done.
  - intros order menu_links p.
    destruct (crawl_iteration_run order menu_links p v w)
      as (v' & w' & evs' & Hiter & Hlog & Hcases).
    exists v', w', evs'. split; [done|]. split; [done|].
    destruct (bool_decide (p ∉ visited_pages v)) eqn:Hnew; simpl in Hcases;
      [destruct (is_same_or_subpath p base_url)|].
    + apply bool_decide_eq_true in Hnew.
      destruct Hcases as (? & ? & body & _ & -> & Hbody & Hvis & _).
      split_and!; [set_solver|done|]. intros _.
      split_and!; [done..|]. exists body. split; [done|].
      by apply visits_body in Hbody.
    + destruct Hcases as (-> & _ & Hvis & _). rewrite Hvis. done.
    + destruct Hcases as (-> & _ & Hvis & _). rewrite Hvis. done.
Qed.

(** C3. Started from a saved state with an empty frontier and a
    non-empty visited set, [crawl_website] returns, and every run of it
    stays at the start of its loop and adds nothing but the final
    summary line: no fetch, no report row. *)
Theorem completed_crawl_is_idle visited w0 :
  state_file w0 = Some (visited, ∅) →
  visited ≠ ∅ →
  (∃ w', crawl_returns w0 w')
  ∧ (∀ v w, crawl_reaches w0 (v, w) → w = w0 ∧ links_to_crawl v = ∅)
  ∧ (∀ w', crawl_returns w0 w' →
           w' = add_events w0 [Print "Total number of links checked: 0"]
           ∧ Forall (fun e => ¬ is_fetch e ∧ ¬ is_row e)
                    (drop (length (log w0)) (log w'))).
Proof.
  intros Hfile Hvisited.
  assert (∀ order,
            crawl_init order w0
            = (Ok ({| visited_pages := visited; links_to_crawl := ∅;
                      count_links := 0%nat |}, ∅), w0)) as Hinit.
  { intros order. unfold crawl_init, load_state. io_unfold. rewrite Hfile.
    simpl. rewrite (bool_decide_eq_false_2 _ Hvisited). simpl. done. }
  assert (∀ v w, crawl_reaches w0 (v, w) →
                 w = w0 ∧ v = {| visited_pages := visited; links_to_crawl := ∅;
                                 count_links := 0%nat |}) as Hidle.
  { intros v w (order & v0 & menu_links & w1 & Hrun & Hsteps).
    rewrite Hinit in Hrun. simplify_eq.
    apply rtc_inv in Hsteps as [?|([v2 w2] & Hstep & _)]; [by simplify_eq|].
    inversion Hstep as [? p ? ? ? ? Hin _]; subst. simpl in Hin.
    by apply not_elem_of_empty in Hin. }
  split_and!.
  - exists (add_events w0 [Print "Total number of links checked: 0"]).
    exists {| visited_pages := visited; links_to_crawl := ∅;
              count_links := 0%nat |}, w0.
    split_and!; [|reflexivity..].
    exists (elements_order string). eexists _, _, _. split; [apply Hinit|].
    apply rtc_refl.
  - intros v w Hrun. apply Hidle in Hrun as [-> ->]. done.
  - intros w' (v & w & Hrun & _ & Hprint).
    apply Hidle in Hrun as [-> ->]. unfold print_total in Hprint.
    io_unfold. simplify_eq. split; [done|].
    simpl. rewrite drop_app_length. repeat constructor; by intros [].
Qed.

(** Every event of a run, up to any point of its loop, is a fetch, a
    status or error line, a filtered report row, the header row or a
    "now visiting" line. *)
Lemma crawl_reaches_events w0 v w :
  crawl_reaches w0 (v, w) →
  ∃ evs,
    log w = log w0 ++ evs
    ∧ Forall (fun e => body_event e
                       ∨ e = WriteRow csv_filename header_row
                       ∨ ∃ p, e = Print ("Crawling and checking links on: " +:+ p))
             evs.
Proof.
  intros (init_evs & loop_evs & Hlog & Htrace & Hinit)%crawl_reaches_trace.
  exists (init_evs ++ loop_evs). split; [done|].
  apply Forall_app. split.
  - destruct (bool_decide (loaded_visited w0 = ∅)); [|subst; constructor].
    destruct Hinit as (pre & post & -> & Hpre & _ & Hpost).
    apply Forall_app. split; [|constructor; [by right; left|]];
      (eapply Forall_impl; [eassumption|by left]).
  - apply loop_trace_events in Htrace.
    eapply Forall_impl; [exact Htrace|]. intros e [?|?]; auto.
Qed.

(** C6 (amended). In a run that loads an empty visited set the header
    row is the first row written and is written exactly once; in a run
    resumed with a non-empty visited set no header row is written. *)
Theorem header_only_when_visited_empty w0 v w :
  crawl_reaches w0 (v, w) →
  ∃ evs,
    log w = log w0 ++ evs
    ∧ if bool_decide (loaded_visited w0 = ∅)
      then ∃ data, rows evs = header_row :: data ∧ header_row ∉ data
      else header_row ∉ rows evs.
Proof.
  intros (init_evs & loop_evs & Hlog & Htrace & Hinit)%crawl_reaches_trace.
  exists (init_evs ++ loop_evs). split; [done|].
  assert (header_row ∉ rows loop_evs) as Hloop.
  { apply loop_trace_events in Htrace.
    intros [file Hin]%elem_of_rows. rewrite Forall_forall in Htrace.
    destruct (Htrace _ Hin) as [Hbody|[p [=]]].
    by eapply body_event_not_header. }
  rewrite rows_app.
  destruct (bool_decide (loaded_visited w0 = ∅)); [|by subst].
  destruct Hinit as (pre & post & -> & _ & Hpre & Hpost).
  exists (rows post ++ rows loop_evs).
  rewrite rows_app, (rows_no_row _ Hpre). split; [done|].
  intros [[file Hin]%elem_of_rows|?]%elem_of_app; [|done].
  rewrite Forall_forall in Hpost.
  by eapply body_event_not_header; [apply (Hpost _ Hin)|].
Qed.


(** C8. With [record_only_broken] set, every row a run writes is the
    header row or a row of the report file whose status is "Broken":
    no row has status "Working". *)
Theorem only_broken_rows_recorded w0 v w :
  record_only_broken = true →
  crawl_reaches w0 (v, w) →
  ∃ evs,
    log w = log w0 ++ evs
    ∧ (∀ file row,
         WriteRow file row ∈ evs →
         file = csv_filename
         ∧ (row = header_row
            ∨ ∃ source_page link_url, row = [source_page; link_url; "Broken"]))
    ∧ (∀ row, row ∈ rows evs → row !! 2%nat ≠ Some "Working").
Proof.
  intros Hflag (evs & Hlog & Hevs)%crawl_reaches_events.
  exists evs. split; [done|].
  assert (∀ file row,
            WriteRow file row ∈ evs →
            file = csv_filename
            ∧ (row = header_row
               ∨ ∃ source_page link_url,
                   row = [source_page; link_url; "Broken"])) as Hrows.
  { intros file row Hin. rewrite Forall_forall in Hevs.
    destruct (Hevs _ Hin) as [Hbody|[[= -> ->]|[p [=]]]]; [|by auto].
    destruct (body_event_row _ _ _ _ _ Hbody eq_refl)
      as (-> & src & l & st & -> & _ & Hst).
    rewrite (Hst Hflag). eauto. }
  split; [done|].
  intros row [file Hin]%elem_of_rows.
  destruct (Hrows file row Hin) as [_ [-> |(? & ? & ->)]]; by intros [=].
Qed.

(** *** Runs on given choices are runs *)

Local Abbreviation crawl_loop :=
  (crawl_loop http BeautifulSoup urljoin urlparse
     base_url csv_filename record_only_broken).
Local Abbreviation crawl_run :=
  (crawl_run http BeautifulSoup urljoin urlparse
     start_url base_url csv_filename record_only_broken).
Local Abbreviation crawl_website :=
  (crawl_website http BeautifulSoup urljoin urlparse
     start_url base_url csv_filename record_only_broken).

Lemma crawl_loop_steps order menu_links pops v w v' w' :
  crawl_loop order menu_links pops v w = (Ok v', w') →
  rtc (crawl_step menu_links) (v, w) (v', w').
Proof.
  revert v w. induction pops as [|p pops IH]; intros v w Hloop; simpl in Hloop.
  - io_unfold. simplify_eq. apply rtc_refl.
  - case_bool_decide as Hin; [|io_unfold; simplify_eq; apply rtc_refl].
    io_unfold.
    destruct (crawl_iteration order menu_links p v w) as [[v1|e] w1] eqn:Hiter;
      [|done].
    eapply rtc_l; [|by apply IH]. by econstructor.
Qed.

Lemma crawl_run_reaches menu_order order pops w0 v w :
  crawl_run menu_order order pops w0 = (Ok v, w) →
  crawl_reaches w0 (v, w).
Proof.
  unfold crawl_run. io_unfold. intros Hrun.
  destruct (crawl_init menu_order w0) as [[[v0 menu_links]|e] w1] eqn:Hinit;
    [|done].
  exists menu_order, v0, menu_links, w1. split; [done|].
  by eapply crawl_loop_steps.
Qed.

Lemma crawl_website_returns menu_order order pops w0 w' :
  crawl_website menu_order order pops w0 = (Ok true, w') →
  crawl_returns w0 w'.
Proof.
  unfold crawl_website. io_unfold. intros Hrun.
  destruct (crawl_run menu_order order pops w0) as [[v|e] w] eqn:Hloop;
    [|done].
  case_bool_decide as Hempty; [|done].
  exists v, w. split_and!; [by eapply crawl_run_reaches|done|].
  unfold print_total in *. io_unfold. by simplify_eq.
Qed.
End Properties.

(** ** The crawler on the small site *)

Lemma demo_run_reaches rob pops w0 v w :
  Demo.run rob pops w0 = (Ok v, w) → Demo.reaches rob w0 (v, w).
Proof. apply crawl_run_reaches. Qed.

Lemma demo_reaches_after_start :
  Demo.reaches true Demo.fresh (Demo.vars_after_start, Demo.world_after_start).
Proof. apply demo_run_reaches with ["http://s/"]. vm_compute. reflexivity. Defined.

Lemma demo_website_returns rob pops w0 w' :
  Demo.website rob pops w0 = (Ok true, w') → Demo.returns rob w0 w'.
Proof. apply crawl_website_returns. Qed.

(** C4 (as the code has it). On a fresh run over the small site three
    links are verified, one of them in the menu pass, and the summary line
    says 2: [count_links] starts at zero after the menu pass. *)
Theorem total_omits_menu_checks :
  ∃ w',
    Demo.returns false Demo.fresh w'
    ∧ log w' =
        [Get "http://s/" None; Get "http://s/about" (Some 10);
         Print "Working: http://s/about (found in menu on http://s/)";
         WriteRow "report.csv" ["Source Page"; "Link URL"; "Status"];
         WriteRow "report.csv" ["http://s/"; "http://s/about"; "Working"];
         Print "Crawling and checking links on: http://s/";
         Get "http://s/" None; Get "https://external.example/" (Some 10);
         Print "Working: https://external.example/ (found on http://s/)";
         WriteRow "report.csv"
           ["http://s/"; "https://external.example/"; "Working"];
         Get "http://s/contact" (Some 10);
         Print "Broken: http://s/contact (found on http://s/)";
         WriteRow "report.csv" ["http://s/"; "http://s/contact"; "Broken"];
         Print "Crawling and checking links on: http://s/contact";
         Get "http://s/contact" None;
         Print "Total number of links checked: 2"]
    ∧ link_checks (log w')
      = ["http://s/about"; "https://external.example/"; "http://s/contact"]
    ∧ last (log w') = Some (Print "Total number of links checked: 2").
Proof.
  exists (Demo.website false ["http://s/"; "http://s/contact"] Demo.fresh).2.
  split; [|by vm_compute].
  apply demo_website_returns with ["http://s/"; "http://s/contact"].
  vm_compute. reflexivity.
Qed.

(** C6 as stated fails: resuming after the start page, the run ends with
    no header row in what it wrote. *)
Lemma header_missing_on_resume :
  ¬ (∀ w', Demo.returns true Demo.resumed w' →
           ∃ data, rows (log w') = header_row :: data ∧ header_row ∉ data).
Proof.
  intros Hclaim.
  destruct (Hclaim (Demo.website true ["http://s/contact"] Demo.resumed).2)
    as (data & Hrows & _).
  - apply demo_website_returns with ["http://s/contact"].
    vm_compute. reflexivity.
  - vm_compute in Hrows. discriminate.
Qed.

Lemma no_duplicate_visit_witness :
  Demo.reaches true Demo.fresh (Demo.vars_after_start, Demo.world_after_start)
  ∧ ∃ evs,
      log Demo.world_after_start = log Demo.fresh ++ evs
      ∧ NoDup (visits evs)
      ∧ (∀ p, p ∈ visits evs → p ∉ loaded_visited Demo.fresh)
      ∧ visited_pages Demo.vars_after_start
        = loaded_visited Demo.fresh ∪ list_to_set (visits evs).
Proof.
  split; [exact demo_reaches_after_start|].
  exact (proj1 (no_duplicate_visit
                  Demo.http Demo.BeautifulSoup Demo.urljoin Demo.urlparse
                  "http://s/" "http://s/" "report.csv" true
                  Demo.fresh Demo.vars_after_start Demo.world_after_start
                  demo_reaches_after_start)).
Defined.

Lemma completed_crawl_is_idle_witness :
  (state_file Demo.completed
   = Some ({[ "http://s/"; "http://s/contact" ]}, ∅)
   ∧ ({[ "http://s/"; "http://s/contact" ]} : gset string) ≠ ∅)
  ∧ ∃ w', Demo.returns true Demo.completed w'.
Proof.
  assert (({[ "http://s/"; "http://s/contact" ]} : gset string) ≠ ∅) as Hne.
  { intros Heq. apply (not_elem_of_empty (C := gset string) "http://s/").
    rewrite <- Heq. apply elem_of_union_l, elem_of_singleton. reflexivity. }
  split; [split; [reflexivity|exact Hne]|].
  exact (proj1 (completed_crawl_is_idle
                  Demo.http Demo.BeautifulSoup Demo.urljoin Demo.urlparse
                  "http://s/" "http://s/" "report.csv" true
                  _ Demo.completed eq_refl Hne)).
Defined.

Lemma header_only_when_visited_empty_witness :
  Demo.reaches true Demo.fresh (Demo.vars_after_start, Demo.world_after_start)
  ∧ ∃ evs,
      log Demo.world_after_start = log Demo.fresh ++ evs
      ∧ if bool_decide (loaded_visited Demo.fresh = ∅)
        then ∃ data, rows evs = header_row :: data ∧ header_row ∉ data
        else header_row ∉ rows evs.
Proof.
  split; [exact demo_reaches_after_start|].
  exact (header_only_when_visited_empty
           Demo.http Demo.BeautifulSoup Demo.urljoin Demo.urlparse
           "http://s/" "http://s/" "report.csv" true
           Demo.fresh Demo.vars_after_start Demo.world_after_start
           demo_reaches_after_start).
Defined.

Lemma only_broken_rows_recorded_witness :
  Demo.reaches true Demo.fresh (Demo.vars_after_start, Demo.world_after_start)
  ∧ ∃ evs,
      log Demo.world_after_start = log Demo.fresh ++ evs
      ∧ (∀ file row,
           WriteRow file row ∈ evs →
           file = "report.csv"
           ∧ (row = header_row
              ∨ ∃ source_page link_url, row = [source_page; link_url; "Broken"]))
      ∧ (∀ row, row ∈ rows evs → row !! 2%nat ≠ Some "Working").
Proof.
  split; [exact demo_reaches_after_start|].
  exact (only_broken_rows_recorded
           Demo.http Demo.BeautifulSoup Demo.urljoin Demo.urlparse
           "http://s/" "http://s/" "report.csv" true
           Demo.fresh Demo.vars_after_start Demo.world_after_start
           eq_refl demo_reaches_after_start).
Defined.

Lemma extractors_empty_on_failure_witness :
  ((∃ msg, Demo.http (log Demo.fresh) "http://down/" None = inr msg)
   ∨ (∃ r, Demo.http (log Demo.fresh) "http://down/" None = inl r
           ∧ is_html r = false))
  ∧ (∃ w', extract_menu_links Demo.http Demo.BeautifulSoup Demo.urljoin
             Demo.urlparse "http://down/" Demo.fresh = (Ok ∅, w'))
  ∧ (∃ w', get_body_links Demo.http Demo.BeautifulSoup Demo.urljoin
             Demo.urlparse "http://down/" "http://s/" ∅ Demo.fresh = (Ok ∅, w')).
Proof.
  assert ((∃ msg, Demo.http (log Demo.fresh) "http://down/" None = inr msg)
          ∨ (∃ r, Demo.http (log Demo.fresh) "http://down/" None = inl r
                  ∧ is_html r = false)) as Hdown.
  { left. exists "connection refused". reflexivity. }
  split; [exact Hdown|].
  exact (extractors_empty_on_failure
           Demo.http Demo.BeautifulSoup Demo.urljoin Demo.urlparse
           "http://down/" "http://s/" ∅ Demo.fresh Hdown).
Defined.


(** ** The classifiers: scope and content type *)

Lemma append_cons a (s rest : string) :
  String a s +:+ rest = String a (s +:+ rest).
Proof. reflexivity. Qed.

Lemma append_nil_r (s : string) : s +:+ "" = s.
Proof. induction s as [|a s IH]; [done|]. by rewrite append_cons, IH. Qed.

Lemma append_assoc (s1 s2 s3 : string) : (s1 +:+ s2) +:+ s3 = s1 +:+ s2 +:+ s3.
Proof. induction s1 as [|a s1 IH]; [done|]. by rewrite !append_cons, IH. Qed.

Lemma prefix_app_iff (p s : string) :
  String.prefix p s = true ↔ ∃ rest, s = p +:+ rest.
Proof.
  revert s. induction p as [|a p IH]; intros s.
  - split; [intros _; by exists s|]. intros _. by destruct s.
  - destruct s as [|b s]; simpl.
    + split; [done|]. intros [rest Hrest]. by rewrite append_cons in Hrest.
    + destruct (Ascii.ascii_dec a b) as [->|Hne].
      * rewrite IH. split; intros [rest Hrest]; exists rest.
        -- by rewrite append_cons, Hrest.
        -- rewrite append_cons in Hrest. by injection Hrest.
      * split; [done|]. intros [rest Hrest]. rewrite append_cons in Hrest.
        by injection Hrest.
Qed.

Lemma index_app_iff (needle s : string) :
  is_Some (String.index 0 needle s) ↔ ∃ pre post, s = pre +:+ needle +:+ post.
Proof.
  induction s as [|b s IH].
  - simpl. destruct needle as [|a needle].
    + split; [intros _; by exists "", ""|]. by eauto.
    + split; [by intros [? [=]]|]. intros (pre & post & Heq).
      destruct pre; discriminate Heq.
  - cbn [String.index].
    destruct (String.prefix needle (String b s)) eqn:Hprefix.
    + split; [intros _|by eauto].
      apply prefix_app_iff in Hprefix as [post Hpost]. by exists "", post.
    + split.
      * destruct (String.index 0 needle s) as [m|] eqn:Hidx; [|by intros [? [=]]].
        intros _. destruct (proj1 IH) as (pre & post & ->); [by eauto|].
        by exists (String b pre), post.
      * intros (pre & post & Heq). destruct pre as [|c pre].
        -- assert (String.prefix needle (String b s) = true) as Hp; [|congruence].
           apply prefix_app_iff. by exists post.
        -- injection Heq as -> ->.
           destruct (proj2 IH) as [m ->]; by eauto.
Qed.

(** X1. Scope is a literal string prefix: a URL is in scope exactly when
    it is the base followed by anything at all, path separator or not; an
    empty base puts every URL in scope; and what is in scope of a base is
    in scope of every base that the base itself is in scope of. *)
Theorem scope_is_literal_prefix url base_url :
  (is_same_or_subpath url base_url = true ↔ ∃ rest, url = base_url +:+ rest)
  ∧ is_same_or_subpath url "" = true
  ∧ is_same_or_subpath base_url base_url = true
  ∧ (∀ wider,
       is_same_or_subpath url base_url = true →
       is_same_or_subpath base_url wider = true →
       is_same_or_subpath url wider = true).
Proof.
  unfold is_same_or_subpath. split_and!.
  - apply prefix_app_iff.
  - apply prefix_app_iff. by exists url.
  - apply prefix_app_iff. exists "". by rewrite append_nil_r.
  - intros wider [r1 ->]%prefix_app_iff [r2 ->]%prefix_app_iff.
    apply prefix_app_iff. exists (r2 +:+ r1). by rewrite append_assoc.
Qed.

(** X2. A response counts as HTML exactly when it has a [Content-Type]
    header whose value contains "text/html" somewhere; a response without
    that header is not HTML. *)
Theorem is_html_iff_content_type_contains (response : Response) :
  (is_html response = true
   ↔ ∃ content_type pre post,
       headers response !! "Content-Type" = Some content_type
       ∧ content_type = pre +:+ "text/html" +:+ post)
  ∧ (headers response !! "Content-Type" = None → is_html response = false).
Proof.
  unfold is_html. split.
  - rewrite bool_decide_eq_true, index_app_iff.
    destruct (headers response !! "Content-Type") as [ct|]; simpl.
    + split; [intros (pre & post & ->); by eauto|].
      intros (? & pre & post & [= <-] & ->). by eauto.
    + split; [|by intros (? & ? & ? & [=] & _)].
      intros (pre & post & Heq). destruct pre; discriminate Heq.
  - intros ->. reflexivity.
Qed.

(** ** What the extractors return on an HTML page *)






Lemma elem_of_foldl_add {A B} `{Countable B}
    (keep : A → bool) (f : A → B) (xs : list A) (init : gset B) y :
  y ∈ foldl (fun acc x => if keep x then acc ∪ {[f x]} else acc) init xs
  ↔ y ∈ init ∨ ∃ x, x ∈ xs ∧ keep x = true ∧ y = f x.
Proof.
  revert init. induction xs as [|x xs IH]; intros init; simpl.
  - split; [by left|]. intros [?|(x & Hx & _)]; [done|].
    by apply elem_of_nil in Hx.
  - rewrite IH. split.
    + intros [Hy|(x' & Hx' & ? & ?)].
      * destruct (keep x) eqn:Hkeep; [|by left].
        apply elem_of_union in Hy as [?| ->%elem_of_singleton]; [by left|].
        right. exists x. split; [by left|done].
      * right. exists x'. split; [by right|done].
    + intros [Hy|(x' & [->|Hx']%elem_of_cons & Hkeep & ->)].
      * left. destruct (keep x); [|done]. by apply elem_of_union_l.
      * left. rewrite Hkeep. by apply elem_of_union_r, elem_of_singleton.
      * right. by exists x'.
Qed.


Section Extraction.
Variable http : list event → string → option Z → Response + string.
Variable BeautifulSoup : string → Tag.
Variable urljoin : string → string → string.
Variable urlparse : string → ParseResult.

Local Abbreviation is_valid_url := (is_valid_url urlparse).
Local Abbreviation extract_menu_links :=
  (extract_menu_links http BeautifulSoup urljoin urlparse).
Local Abbreviation get_body_links :=
  (get_body_links http BeautifulSoup urljoin urlparse).


Lemma get_body_links_html url base_url menu_links w r :
  http (log w) url None = inl r →
  is_html r = true →
  ∃ links,
    get_body_links url base_url menu_links w
    = (Ok links, add_events w [Get url None])
    ∧ ∀ source_page l,
        (source_page, l) ∈ links
        ↔ source_page = url
          ∧ (l ∉ menu_links)
          ∧ ∃ a,
              a ∈ find_all "a" true (BeautifulSoup (text r))
              ∧ l = urljoin url (href a)
              ∧ is_valid_url l = true.
Proof.
  intros Hget Hhtml.
  unfold get_body_links, try_except, requests_get. io_unfold.
  rewrite Hget, Hhtml. simpl. eexists. split; [reflexivity|].
  intros source_page l.
  rewrite (elem_of_foldl_add
             (fun link => is_valid_url (urljoin url (href link))
                          && bool_decide (urljoin url (href link) ∉ menu_links))
             (fun link => (url, urljoin url (href link)))).
  split.
  - intros [Hempty|(a & ? & Hkeep & [= -> ->])];
      [by apply not_elem_of_empty in Hempty|].
    apply andb_true_iff in Hkeep as [? ?%bool_decide_eq_true].
    split_and!; [done..|]. by exists a.
  - intros (-> & Hnew & a & ? & -> & Hvalid). right. exists a.
    split_and!; [done| |done]. rewrite Hvalid. simpl.
    by apply bool_decide_eq_true.
Qed.




End Extraction.

(** ** Accounting for the events of a run *)

Lemma link_checks_app t1 t2 : link_checks (t1 ++ t2) = link_checks t1 ++ link_checks t2.
Proof. apply omap_app. Qed.

Lemma page_fetches_app t1 t2 :
  page_fetches (t1 ++ t2) = page_fetches t1 ++ page_fetches t2.
Proof. apply omap_app. Qed.

Lemma link_checks_rows t : Forall is_row t → link_checks t = [].
Proof. induction 1 as [|[] t He _ IH]; done. Qed.

Lemma page_fetches_rows t : Forall is_row t → page_fetches t = [].
Proof. induction 1 as [|[] t He _ IH]; done. Qed.

Lemma visits_rows t : Forall is_row t → visits t = [].
Proof. induction 1 as [|[] t He _ IH]; done. Qed.

Section Accounting.
Variable http : list event → string → option Z → Response + string.
Variable BeautifulSoup : string → Tag.
Variable urljoin : string → string → string.
Variable urlparse : string → ParseResult.
Variables (start_url base_url csv_filename : string) (record_only_broken : bool).

Local Abbreviation is_valid_url := (is_valid_url urlparse).
Local Abbreviation check_link := (check_link http).
Local Abbreviation extract_menu_links :=
  (extract_menu_links http BeautifulSoup urljoin urlparse).
Local Abbreviation get_body_links :=
  (get_body_links http BeautifulSoup urljoin urlparse).
Local Abbreviation write_filtered :=
  (write_filtered csv_filename record_only_broken).
Local Abbreviation check_body_link :=
  (check_body_link http base_url csv_filename record_only_broken).
Local Abbreviation check_menu_link := (check_menu_link http start_url).
Local Abbreviation write_menu_result :=
  (write_menu_result csv_filename record_only_broken).
Local Abbreviation crawl_iteration :=
  (crawl_iteration http BeautifulSoup urljoin urlparse
     base_url csv_filename record_only_broken).
Local Abbreviation crawl_init :=
  (crawl_init http BeautifulSoup urljoin urlparse
     start_url csv_filename record_only_broken).
Local Abbreviation crawl_step :=
  (crawl_step http BeautifulSoup urljoin urlparse
     base_url csv_filename record_only_broken).
Local Abbreviation crawl_reaches :=
  (crawl_reaches http BeautifulSoup urljoin urlparse
     start_url base_url csv_filename record_only_broken).
Local Abbreviation loop_account :=
  (loop_account urlparse base_url record_only_broken).
Local Abbreviation restart_safe := (restart_safe start_url).

Lemma write_filtered_exact source_page link_url status w :
  write_filtered source_page link_url status w
  = (Ok tt,
     add_events w
       (if negb record_only_broken || String.eqb status "Broken"
        then [WriteRow csv_filename [source_page; link_url; status]] else [])).
Proof.
  unfold write_filtered.
  destruct (negb record_only_broken || String.eqb status "Broken"); [done|].
  by rewrite add_events_nil.
Qed.

(** What one pass through the body of the link loop does, exactly. *)
Lemma check_body_link_exact source_page link_url v w :
  String.prefix blocklist_prefix link_url = false →
  ∃ status,
    (status = "Working" ∨ status = "Broken")
    ∧ check_body_link (source_page, link_url) v w
      = (Ok {| visited_pages := visited_pages v;
               links_to_crawl :=
                 if is_same_or_subpath link_url base_url
                    && bool_decide (link_url ∉ visited_pages v)
                 then links_to_crawl v ∪ {[link_url]} else links_to_crawl v;
               count_links := S (count_links v) |},
         add_events w
           (Get link_url (Some 10)
            :: Print (status +:+ ": " +:+ link_url +:+ " (found on "
                      +:+ source_page +:+ ")")
            :: (if negb record_only_broken || String.eqb status "Broken"
                then [WriteRow csv_filename [source_page; link_url; status]]
                else []))).
Proof.
  intros Hblock. unfold check_body_link. rewrite Hblock.
  destruct (check_link_run http link_url w) as (status & Hcheck & Hstatus & _).
  exists status. split; [done|]. io_unfold.
  rewrite Hcheck, write_filtered_exact, !add_events_app.
  by rewrite Nat.add_1_r.
Qed.

Lemma check_body_link_account source_page link_url v w :
  ∃ v' evs,
    check_body_link (source_page, link_url) v w = (Ok v', add_events w evs)
    ∧ visits evs = []
    ∧ page_fetches evs = []
    ∧ link_checks evs
      = (if String.prefix blocklist_prefix link_url then [] else [link_url])
    ∧ count_links v' = (count_links v + length (link_checks evs))%nat
    ∧ (record_only_broken = false →
       row_link <$> rows evs = Some <$> link_checks evs).
Proof.
  destruct (String.prefix blocklist_prefix link_url) eqn:Hblock.
  - exists v, []. unfold check_body_link. rewrite Hblock, add_events_nil.
    split_and!; [done..|simpl; lia|done].
  - destruct (check_body_link_exact source_page link_url v w Hblock)
      as (status & Hstatus & ->).
    eexists _, _. split; [reflexivity|].
    assert (∀ rest, visiting (Print (status +:+ ": " +:+ rest)) = None) as Hquiet.
    { intros rest. by destruct Hstatus as [-> | ->]. }
    split_and!.
    + rewrite !visits_cons, Hquiet. simpl.
      by destruct (negb record_only_broken || String.eqb status "Broken").
    + by destruct (negb record_only_broken || String.eqb status "Broken").
    + by destruct (negb record_only_broken || String.eqb status "Broken").
    + destruct (negb record_only_broken || String.eqb status "Broken");
        simpl; lia.
    + intros ->. done.
Qed.

Lemma check_body_links_account (links : list (string * string)) v w :
  ∃ v' evs,
    for_each links check_body_link v w = (Ok v', add_events w evs)
    ∧ visits evs = []
    ∧ page_fetches evs = []
    ∧ link_checks evs
      = (filter (fun link => String.prefix blocklist_prefix link.2 = false)
                links).*2
    ∧ count_links v' = (count_links v + length (link_checks evs))%nat
    ∧ (record_only_broken = false →
       row_link <$> rows evs = Some <$> link_checks evs).
Proof.
  revert v w. induction links as [|[source_page link_url] links IH]; intros v w.
  - exists v, []. simpl. rewrite add_events_nil.
    split_and!; [done..|simpl; lia|done].
  - destruct (check_body_link_account source_page link_url v w)
      as (v1 & evs1 & Hrun1 & Hvis1 & Hpage1 & Hchk1 & Hcount1 & Hrows1).
    destruct (IH v1 (add_events w evs1))
      as (v2 & evs2 & Hrun2 & Hvis2 & Hpage2 & Hchk2 & Hcount2 & Hrows2).
    exists v2, (evs1 ++ evs2).
    rewrite for_each_cons, Hrun1, Hrun2, add_events_app.
    split_and!; [done|..].
    + by rewrite visits_app, Hvis1, Hvis2.
    + by rewrite page_fetches_app, Hpage1, Hpage2.
    + rewrite link_checks_app, Hchk1, Hchk2, filter_cons. simpl.
      destruct (String.prefix blocklist_prefix link_url) eqn:Hblock.
      * by rewrite decide_False by done.
      * by rewrite decide_True by done.
    + rewrite link_checks_app, length_app. lia.
    + intros Hflag. rewrite rows_app, link_checks_app, !fmap_app.
      by rewrite Hrows1, Hrows2.
Qed.

Lemma get_body_links_sound url menu_links w :
  ∃ links w',
    get_body_links url base_url menu_links w = (Ok links, w')
    ∧ ∀ source_page l,
        (source_page, l) ∈ links →
        source_page = url ∧ is_valid_url l = true ∧ l ∉ menu_links.
Proof.
  destruct (get_body_links_run http BeautifulSoup urljoin urlparse
              url base_url menu_links w) as (links & evs & Hrun & Hcase).
  exists links. eexists. split; [done|]. intros source_page l Hin.
  destruct (http (log w) url None) as [r|msg] eqn:Hget.
  - destruct (is_html r) eqn:Hhtml.
    + destruct (get_body_links_html http BeautifulSoup urljoin urlparse
                  url base_url menu_links w r Hget Hhtml)
        as (links' & Hrun' & Hin').
      rewrite Hrun in Hrun'. simplify_eq.
      apply Hin' in Hin as (-> & ? & a & _ & -> & ?). done.
    + destruct Hcase as [_ Hnone]. rewrite Hnone in Hin by done.
      by apply not_elem_of_empty in Hin.
  - destruct Hcase as [_ ->]. by apply not_elem_of_empty in Hin.
Qed.

Lemma crawl_iteration_account order menu_links current_page v w :
  ∃ v' w' evs,
    crawl_iteration order menu_links current_page v w = (Ok v', w')
    ∧ log w' = log w ++ evs
    ∧ if bool_decide (current_page ∉ visited_pages v)
         && is_same_or_subpath current_page base_url
      then
        ∃ page_links w1,
          get_body_links current_page base_url menu_links
            (add_events w [Print ("Crawling and checking links on: "
                                  +:+ current_page)])
          = (Ok page_links, w1)
          ∧ visits evs = [current_page]
          ∧ page_fetches evs = [current_page]
          ∧ link_checks evs
            = (filter (fun link => String.prefix blocklist_prefix link.2 = false)
                      (order page_links)).*2
          ∧ count_links v' = (count_links v + length (link_checks evs))%nat
          ∧ (record_only_broken = false →
             row_link <$> rows evs = Some <$> link_checks evs)
      else evs = [] ∧ count_links v' = count_links v.
Proof.
  unfold crawl_iteration.
  destruct (bool_decide (current_page ∉ visited_pages v)
            && is_same_or_subpath current_page base_url).
  2:{ eexists _, w, []. rewrite app_nil_r. by split_and!. }
  set (line := "Crawling and checking links on: " +:+ current_page).
  destruct (get_body_links_run http BeautifulSoup urljoin urlparse
              current_page base_url menu_links (add_events w [Print line]))
    as (page_links & evs0 & Hget & Hevs0).
  destruct (check_body_links_account (order page_links)
              {| visited_pages := visited_pages v ∪ {[current_page]};
                 links_to_crawl := links_to_crawl v ∖ {[current_page]};
                 count_links := count_links v |}
              (add_events (add_events w [Print line])
                          (Get current_page None :: evs0)))
    as (v2 & evs2 & Hloop & Hvis2 & Hpage2 & Hchk2 & Hcount2 & Hrows2).
  io_unfold. fold line. rewrite Hget, Hloop. unfold save_state.
  eexists v2, _, (Print line :: Get current_page None :: evs0 ++ evs2).
  split; [reflexivity|]. simpl in Hcount2.
  split. { simpl. by rewrite <- !app_assoc. }
  exists page_links, (add_events (add_events w [Print line])
                        (Get current_page None :: evs0)).
  assert (visits evs0 = [] ∧ page_fetches evs0 = [] ∧ link_checks evs0 = []
          ∧ rows evs0 = []) as (Hvis0 & Hpage0 & Hchk0 & Hrows0).
  { destruct (http _ _ _); destruct Hevs0 as [-> _]; done. }
  split_and!; [done|..].
  - rewrite visits_cons. unfold line. rewrite visiting_line, visits_cons.
    simpl. by rewrite visits_app, Hvis0, Hvis2.
  - change (page_fetches (Print line :: Get current_page None :: evs0 ++ evs2))
      with (current_page :: page_fetches (evs0 ++ evs2)).
    by rewrite page_fetches_app, Hpage0, Hpage2.
  - change (link_checks (Print line :: Get current_page None :: evs0 ++ evs2))
      with (link_checks (evs0 ++ evs2)).
    by rewrite link_checks_app, Hchk0, Hchk2.
  - change (link_checks (Print line :: Get current_page None :: evs0 ++ evs2))
      with (link_checks (evs0 ++ evs2)).
    by rewrite link_checks_app, Hchk0.
  - intros Hflag.
    change (link_checks (Print line :: Get current_page None :: evs0 ++ evs2))
      with (link_checks (evs0 ++ evs2)).
    change (rows (Print line :: Get current_page None :: evs0 ++ evs2))
      with (rows (evs0 ++ evs2)).
    rewrite link_checks_app, rows_app, Hchk0, Hrows0. by apply Hrows2.
Qed.

(** Two accounts of one turn speak of the same result. *)
Lemma same_turn {v1 w1 evs1 v2 w2 evs2} {m : IO crawl_vars} {w} :
  m w = (Ok v1, w1) → log w1 = log w ++ evs1 →
  m w = (Ok v2, w2) → log w2 = log w ++ evs2 →
  v1 = v2 ∧ w1 = w2 ∧ evs1 = evs2.
Proof.
  intros H1 Hlog1 H2 Hlog2. rewrite H1 in H2. simplify_eq.
  split_and!; [done..|]. rewrite Hlog1 in Hlog2. by eapply app_inv_head.
Qed.


(** *** The menu pass, exactly *)

Lemma check_menu_links_account (links : list string) results w :
  ∃ found evs,
    for_each links check_menu_link results w
    = (Ok (results ++ found), add_events w evs)
    ∧ Forall status_ok found
    ∧ found.*1 = (fun l => (start_url, l)) <$> links
    ∧ link_checks evs = links
    ∧ page_fetches evs = []
    ∧ visits evs = []
    ∧ rows evs = [].
Proof.
  revert results w. induction links as [|link links IH]; intros results w.
  - exists [], []. simpl. rewrite add_events_nil, app_nil_r.
    split_and!; [done|constructor|done..].
  - destruct (check_link_run http link w) as (status & Hcheck & Hstatus & _).
    set (line := status +:+ ": " +:+ link +:+ " (found in menu on "
                 +:+ start_url +:+ ")").
    destruct (IH (results ++ [(start_url, link, status)])
                (add_events w [Get link (Some 10); Print line]))
      as (found & evs & Hrun & Hfound & Hlinks & Hchk & Hpage & Hvis & Hrows).
    exists ((start_url, link, status) :: found),
           (Get link (Some 10) :: Print line :: evs).
    rewrite for_each_cons. unfold check_menu_link at 1. io_unfold.
    rewrite Hcheck. fold line. rewrite add_events_app.
    change ([Get link (Some 10)] ++ [Print line])
      with [Get link (Some 10); Print line].
    rewrite Hrun, add_events_app, <- app_assoc.
    split_and!; [done|by constructor|by rewrite fmap_cons, Hlinks|..].
    + change (link_checks (Get link (Some 10) :: Print line :: evs))
        with (link :: link_checks evs). by rewrite Hchk.
    + done.
    + rewrite !visits_cons. simpl. unfold line.
      by destruct Hstatus as [-> | ->].
    + done.
Qed.

Lemma write_menu_results_account (results : list (string * string * string)) w :
  Forall status_ok results →
  ∃ evs,
    for_each results write_menu_result tt w = (Ok tt, add_events w evs)
    ∧ Forall is_row evs
    ∧ (header_row ∉ rows evs)
    ∧ (record_only_broken = false →
       row_link <$> rows evs = Some <$> results.*1.*2).
Proof.
  revert w. induction results as [|[[src link] status] results IH];
    intros w Hres.
  - exists []. simpl. rewrite add_events_nil.
    split_and!; [done|constructor|by intros ?%elem_of_nil|done].
  - apply Forall_cons in Hres as [Hstatus Hres].
    destruct (IH (add_events w
                    (if negb record_only_broken || String.eqb status "Broken"
                     then [WriteRow csv_filename [src; link; status]] else []))
                Hres)
      as (evs & Hrun & Hrows & Hheader & Hlinks).
    eexists (_ ++ evs). rewrite for_each_cons. unfold write_menu_result at 1.
    rewrite write_filtered_exact, Hrun, add_events_app.
    split; [reflexivity|].
    destruct (negb record_only_broken || String.eqb status "Broken") eqn:Hkeep.
    + split_and!.
      * constructor; [exact I|done].
      * intros [Heq|?]%elem_of_cons; [|done].
        destruct Hstatus as [Hs|Hs]; simpl in Hs; subst status; discriminate Heq.
      * intros Hflag. simpl. f_equal. by apply Hlinks.
    + split_and!; [done..|]. intros ->. done.
Qed.

Lemma crawl_init_account order w0 :
  ∃ menu_links evs,
    crawl_init order w0
    = (Ok ({| visited_pages := loaded_visited w0;
              links_to_crawl :=
                if bool_decide (loaded_visited w0 = ∅)
                   && bool_decide (loaded_frontier w0 = ∅)
                then loaded_frontier w0 ∪ {[start_url]}
                else loaded_frontier w0;
              count_links := 0%nat |}, menu_links),
       add_events w0 evs)
    ∧ if bool_decide (loaded_visited w0 = ∅)
      then (∃ w', extract_menu_links start_url w0 = (Ok menu_links, w'))
           ∧ page_fetches evs = [start_url]
           ∧ visits evs = []
           ∧ link_checks evs = order menu_links
           ∧ ∃ data,
               rows evs = header_row :: data
               ∧ (header_row ∉ data)
               ∧ (record_only_broken = false →
                  row_link <$> data = Some <$> order menu_links)
      else evs = [] ∧ menu_links = ∅.
Proof.
  unfold crawl_init, load_state, loaded_visited, loaded_frontier.
  io_unfold.
  destruct (default (∅, ∅) (state_file w0)) as [visited loaded]; simpl.
  destruct (bool_decide (visited = ∅)).
  2:{ exists ∅, []. by rewrite add_events_nil. }
  destruct (extract_menu_links_run http BeautifulSoup urljoin urlparse
              start_url w0) as (menu_links & evs0 & Hmenu & Hevs0).
  destruct (check_menu_links_account (order menu_links) []
              (add_events w0 (Get start_url None :: evs0)))
    as (found & evs1 & Hcheck & Hfound & Hlinks & Hchk1 & Hpage1 & Hvis1 & Hrows1).
  destruct (write_menu_results_account found
              (add_events (add_events (add_events w0 (Get start_url None :: evs0))
                                      evs1)
                          [WriteRow csv_filename header_row]) Hfound)
    as (evs2 & Hwrite & Hrows2 & Hheader2 & Hlinks2).
  rewrite Hmenu, Hcheck. simpl. rewrite Hwrite, !add_events_app.
  exists menu_links, ((Get start_url None :: evs0) ++ evs1
                      ++ [WriteRow csv_filename header_row] ++ evs2).
  split; [done|].
  assert (visits evs0 = [] ∧ page_fetches evs0 = [] ∧ link_checks evs0 = []
          ∧ rows evs0 = []) as (Hvis0 & Hpage0 & Hchk0 & Hrows0).
  { destruct (http _ _ _); destruct Hevs0 as [-> _]; done. }
  split_and!; [by eauto|..].
  - change (page_fetches ((Get start_url None :: evs0) ++ evs1
                          ++ [WriteRow csv_filename header_row] ++ evs2))
      with (start_url :: page_fetches (evs0 ++ evs1
                          ++ [WriteRow csv_filename header_row] ++ evs2)).
    rewrite !page_fetches_app, Hpage0, Hpage1, (page_fetches_rows _ Hrows2).
    done.
  - change (visits ((Get start_url None :: evs0) ++ evs1
                    ++ [WriteRow csv_filename header_row] ++ evs2))
      with (visits (evs0 ++ evs1
                    ++ [WriteRow csv_filename header_row] ++ evs2)).
    by rewrite !visits_app, Hvis0, Hvis1, (visits_rows _ Hrows2).
  - change (link_checks ((Get start_url None :: evs0) ++ evs1
                         ++ [WriteRow csv_filename header_row] ++ evs2))
      with (link_checks (evs0 ++ evs1
                         ++ [WriteRow csv_filename header_row] ++ evs2)).
    rewrite !link_checks_app, Hchk0, Hchk1, (link_checks_rows _ Hrows2).
    simpl. by rewrite app_nil_r.
  - exists (rows evs2).
    change (rows ((Get start_url None :: evs0) ++ evs1
                  ++ [WriteRow csv_filename header_row] ++ evs2))
      with (rows (evs0 ++ evs1
                  ++ [WriteRow csv_filename header_row] ++ evs2)).
    rewrite !rows_app, Hrows0, Hrows1. split_and!; [done..|].
    intros Hflag. rewrite (Hlinks2 Hflag), Hlinks.
    rewrite <- list_fmap_compose. by rewrite <- list_fmap_compose.
Qed.

(** *** The loop, turn after turn *)

Lemma crawl_steps_account menu_links v0 w1 c :
  rtc (crawl_step menu_links) (v0, w1) c → loop_account menu_links v0 w1 c.
Proof.
  revert c. apply rtc_ind_r.
  - exists []. simpl. rewrite app_nil_r. split_and!.
    + done.
    + done.
    + intros ? Hin. by apply elem_of_nil in Hin.
    + lia.
    + intros ? Hin. by apply elem_of_nil in Hin.
    + done.
    + by left.
  - intros [v w] [v' w'] _ Hstep
      (evs & Hlog & Hpages & Hscope & Hcount & Hchecks & Hrows & Hfront).
    simpl in *.
    inversion Hstep as [order p ? ? ? ? Hpop Hiter]; subst.
    destruct (crawl_iteration_account order menu_links p v w)
      as (v2 & w2 & evs' & Hiter2 & Hlog' & Hacc).
    destruct (crawl_iteration_run http BeautifulSoup urljoin urlparse
                base_url csv_filename record_only_broken
                order menu_links p v w)
      as (v3 & w3 & evs3 & Hiter3 & Hlog3 & Hrun).
    destruct (same_turn Hiter2 Hlog' Hiter3 Hlog3) as (<- & <- & <-).
    rewrite Hiter in Hiter2. simplify_eq.
    exists (evs ++ evs'). simpl.
    split. { by rewrite Hlog', Hlog, app_assoc. }
    destruct (bool_decide (p ∉ visited_pages v)
              && is_same_or_subpath p base_url) eqn:Hcond.
    2:{ destruct Hacc as [-> Hcount']. rewrite app_nil_r.
        destruct Hrun as (_ & _ & _ & Hfront' & _).
        split_and!; [done|done|lia|done|done|].
        intros l Hl. apply Hfront. rewrite Hfront' in Hl. set_solver. }
    apply andb_true_iff in Hcond as [_ Hp].
    destruct Hacc
      as (page_links & w1' & Hget & Hvis' & Hpage' & Hchk' & Hcount' & Hrows').
    destruct Hrun as (page_links' & w1'' & _ & Hget' & _ & _ & _ & _ & Hfront' & _).
    rewrite Hget in Hget'. simplify_eq.
    destruct (get_body_links_sound p menu_links
                (add_events w [Print ("Crawling and checking links on: " +:+ p)]))
      as (links & w4 & Hget4 & Hsound).
    rewrite Hget in Hget4. simplify_eq.
    assert (∀ link, link ∈ order links → link ∈ links) as Hmem.
    { intros link. rewrite (enum_perm order links). apply elem_of_elements. }
    rewrite visits_app, page_fetches_app, link_checks_app, rows_app, !fmap_app,
      length_app, Hvis', Hpage', Hpages.
    split_and!; [done| |lia|..].
    + intros q [Hq| ->%list_elem_of_singleton]%elem_of_app; [by apply Hscope|].
      split; [done|]. destruct (Hfront _ Hpop) as [?|(_ & ? & ? & _)]; auto.
    + intros l [Hl|Hl]%elem_of_app; [by apply Hchecks|].
      rewrite Hchk' in Hl.
      apply list_elem_of_fmap in Hl
        as ([s l'] & -> & [Hnb Hin%Hmem]%list_elem_of_filter).
      simpl in *. by destruct (Hsound _ _ Hin) as (_ & _ & ?).
    + intros Hflag. by rewrite Hrows, Hrows'.
    + intros l [[Hl _]|(s & Hin & Hnb & Hsc & _)]%Hfront'; [by apply Hfront|].
      right. by destruct (Hsound _ _ Hin) as (_ & ? & ?).
Qed.

Lemma crawl_steps_restart_safe menu_links c c' :
  restart_safe c → rtc (crawl_step menu_links) c c' → restart_safe c'.
Proof.
  intros Hstart. revert c'. apply rtc_ind_r; [done|].
  intros [v w] [v' w'] _ Hstep [Hvis Hfront]. simpl in *.
  inversion Hstep as [order p ? ? ? ? Hpop Hiter]; subst.
  destruct (crawl_iteration_run http BeautifulSoup urljoin urlparse
              base_url csv_filename record_only_broken
              order menu_links p v w)
    as (v2 & w2 & evs & Hiter2 & Hlog & Hrun).
  rewrite Hiter in Hiter2. simplify_eq. unfold restart_safe. simpl.
  destruct (bool_decide (p ∉ visited_pages v)
            && is_same_or_subpath p base_url).
  - destruct Hrun as (page_links & w1 & body & _ & _ & _ & Hvis' & _ & _ & Hfile).
    unfold loaded_visited, loaded_frontier. rewrite Hfile. simpl.
    split; [done|]. rewrite bool_decide_eq_false_2; [done|].
    rewrite Hvis'. set_solver.
  - destruct Hrun as (_ & -> & Hvis' & Hfront' & _).
    rewrite Hvis', Hfront'. split; [done|]. set_solver.
Qed.

(** *** Whole runs, accounted for *)

Lemma crawl_reaches_account w0 v w :
  crawl_reaches w0 (v, w) →
  ∃ order menu_links init_evs,
    crawl_init order w0
    = (Ok ({| visited_pages := loaded_visited w0;
              links_to_crawl :=
                if bool_decide (loaded_visited w0 = ∅)
                   && bool_decide (loaded_frontier w0 = ∅)
                then loaded_frontier w0 ∪ {[start_url]}
                else loaded_frontier w0;
              count_links := 0%nat |}, menu_links),
       add_events w0 init_evs)
    ∧ loop_account menu_links
        {| visited_pages := loaded_visited w0;
           links_to_crawl :=
             if bool_decide (loaded_visited w0 = ∅)
                && bool_decide (loaded_frontier w0 = ∅)
             then loaded_frontier w0 ∪ {[start_url]}
             else loaded_frontier w0;
           count_links := 0%nat |}
        (add_events w0 init_evs) (v, w)
    ∧ restart_safe (v, w)
    ∧ if bool_decide (loaded_visited w0 = ∅)
      then (∃ w', extract_menu_links start_url w0 = (Ok menu_links, w'))
           ∧ page_fetches init_evs = [start_url]
           ∧ visits init_evs = []
           ∧ link_checks init_evs = order menu_links
           ∧ ∃ data,
               rows init_evs = header_row :: data
               ∧ (header_row ∉ data)
               ∧ (record_only_broken = false →
                  row_link <$> data = Some <$> order menu_links)
      else init_evs = [] ∧ menu_links = ∅.
Proof.
  intros (order & v0 & menu_links & w1 & Hinit & Hsteps).
  destruct (crawl_init_account order w0) as (menu' & init_evs & Hrun & Hacc).
  rewrite Hrun in Hinit. simplify_eq.
  exists order, menu_links, init_evs. split; [done|]. split_and!.
  - by apply crawl_steps_account.
  - eapply crawl_steps_restart_safe; [|exact Hsteps]. by split.
  - done.
Qed.

(** X6. At the head of every turn of the loop the state file would
    restart the crawl without loss: loading it gives back the visited set
    held in memory and a frontier that contains the one held in memory. *)
Theorem restart_resumes_without_loss w0 v w :
  crawl_reaches w0 (v, w) →
  ∀ order,
    ∃ v0 menu_links w1,
      crawl_init order w = (Ok (v0, menu_links), w1)
      ∧ visited_pages v0 = visited_pages v
      ∧ links_to_crawl v ⊆ links_to_crawl v0.
Proof.
  intros (? & ? & ? & _ & _ & [Hvis Hfront] & _)%crawl_reaches_account order.
  destruct (crawl_init_account order w) as (menu_links & evs & Hrun & _).
  eexists _, menu_links, _. split; [exact Hrun|]. simpl in *. done.
Qed.

(** X7. Every page a run visits starts with the base URL, even when the
    start URL or a loaded frontier entry does not; the only fetches made
    without a timeout are those of the visited pages, after the single
    fetch of the start URL that the menu pass makes when the loaded
    visited set is empty. *)
Theorem only_in_scope_pages_are_crawled w0 v w :
  crawl_reaches w0 (v, w) →
  ∃ evs,
    log w = log w0 ++ evs
    ∧ (∀ p, p ∈ visits evs → is_same_or_subpath p base_url = true)
    ∧ page_fetches evs
      = (if bool_decide (loaded_visited w0 = ∅) then [start_url] else [])
        ++ visits evs.
Proof.
  intros (order & menu_links & init_evs & _ & Hloop & _ & Hacc)%crawl_reaches_account.
  destruct Hloop as (evs & Hlog & Hpages & Hscope & _). simpl in *.
  exists (init_evs ++ evs). split. { by rewrite Hlog, app_assoc. }
  rewrite visits_app, page_fetches_app, Hpages.
  destruct (bool_decide (loaded_visited w0 = ∅)).
  - destruct Hacc as (_ & -> & -> & _). split; [|done].
    intros p Hp. by apply Hscope.
  - destruct Hacc as [-> _]. split; [|done]. intros p Hp. by apply Hscope.
Qed.

(** X8. The counter behind the summary line is the number of links the
    loop verified: the links verified by the whole run number the counter
    plus, when the menu pass ran, the menu links of the start page. *)
Theorem counter_counts_loop_checks w0 v w :
  crawl_reaches w0 (v, w) →
  ∃ evs,
    log w = log w0 ++ evs
    ∧ if bool_decide (loaded_visited w0 = ∅)
      then ∃ menu_links w',
             extract_menu_links start_url w0 = (Ok menu_links, w')
             ∧ length (link_checks evs) = (size menu_links + count_links v)%nat
      else length (link_checks evs) = count_links v.
Proof.
  intros (order & menu_links & init_evs & _ & Hloop & _ & Hacc)%crawl_reaches_account.
  destruct Hloop as (evs & Hlog & _ & _ & Hcount & _). simpl in *.
  exists (init_evs ++ evs). split. { by rewrite Hlog, app_assoc. }
  rewrite link_checks_app, length_app, Hcount.
  destruct (bool_decide (loaded_visited w0 = ∅)).
  - destruct Hacc as ([w' Hmenu] & _ & _ & -> & _).
    exists menu_links, w'. split; [done|].
    by rewrite (Permutation_length (enum_perm order menu_links)).
  - by destruct Hacc as [-> _].
Qed.

(** X10. Whatever is in the frontier is either one of the entries the
    run started with (the loaded frontier, or the start URL on a fresh
    run) or a valid URL that starts with the base URL and does not start
    with the blocklist prefix. *)
Theorem frontier_holds_seeds_or_in_scope_links w0 v w :
  crawl_reaches w0 (v, w) →
  ∀ l,
    l ∈ links_to_crawl v →
    l ∈ loaded_frontier w0
    ∨ (l = start_url ∧ loaded_visited w0 = ∅ ∧ loaded_frontier w0 = ∅)
    ∨ (is_same_or_subpath l base_url = true
       ∧ is_valid_url l = true
       ∧ String.prefix blocklist_prefix l = false).
Proof.
  intros (order & menu_links & init_evs & _ & Hloop & _)%crawl_reaches_account.
  destruct Hloop as (evs & _ & _ & _ & _ & _ & _ & Hfront). simpl in *.
  intros l [Hseed|(? & ? & _ & ?)]%Hfront; [|by auto].
  repeat case_bool_decide; simpl in Hseed; [|by left..].
  apply elem_of_union in Hseed as [?| ->%elem_of_singleton]; [by left|].
  right. by left.
Qed.

(** X11. When the menu pass runs, every menu link of the start page is
    verified exactly once, in the menu pass; the loop never verifies it,
    and it is in the frontier or among the visited pages only if the run
    started with it there. *)
Theorem menu_links_checked_once_never_crawled w0 v w menu_links w' :
  loaded_visited w0 = ∅ →
  extract_menu_links start_url w0 = (Ok menu_links, w') →
  crawl_reaches w0 (v, w) →
  ∃ evs menu_checks loop_checks,
    log w = log w0 ++ evs
    ∧ link_checks evs = menu_checks ++ loop_checks
    ∧ menu_checks ≡ₚ elements menu_links
    ∧ ∀ l,
        l ∈ menu_links →
        (l ∉ loop_checks)
        ∧ (l ∈ links_to_crawl v ∨ l ∈ visits evs →
           l ∈ loaded_frontier w0 ∨ l = start_url).
Proof.
  intros Hfresh Hmenu
    (order & menu' & init_evs & _ & Hloop & _ & Hacc)%crawl_reaches_account.
  destruct Hloop as (evs & Hlog & _ & Hvisits & _ & Hchecks & _ & Hfront).
  simpl in *. rewrite bool_decide_eq_true_2 in Hacc, Hvisits, Hfront by done.
  destruct Hacc as ([w'' Hmenu'] & _ & Hquiet & Hchk & _).
  rewrite Hmenu in Hmenu'. simplify_eq.
  exists (init_evs ++ evs), (order menu'), (link_checks evs).
  split. { by rewrite Hlog, app_assoc. }
  split. { by rewrite link_checks_app, Hchk. }
  split. { apply enum_perm. }
  assert (∀ l, l ∈ (if true && bool_decide (loaded_frontier w0 = ∅)
                    then loaded_frontier w0 ∪ {[start_url]}
                    else loaded_frontier w0) →
               l ∈ loaded_frontier w0 ∨ l = start_url) as Hseed.
  { intros l. simpl. case_bool_decide; [|by left].
    intros [?| ->%elem_of_singleton]%elem_of_union; auto. }
  intros l Hl. split.
  - intros Hin. by destruct (Hchecks _ Hin).
  - rewrite visits_app, Hquiet. simpl. intros [Hin|Hin].
    + destruct (Hfront _ Hin) as [?|(_ & _ & ? & _)]; [by apply Hseed|done].
    + destruct (Hvisits _ Hin) as [_ [?|[_ ?]]]; [by apply Hseed|done].
Qed.

(** X12. With [record_only_broken] off, the report gets one row per link
    verified, in the order of verification, after the header row when the
    menu pass ran: the link column of the data rows is the list of links
    verified. *)
Theorem every_check_recorded_without_filter w0 v w :
  record_only_broken = false →
  crawl_reaches w0 (v, w) →
  ∃ evs data,
    log w = log w0 ++ evs
    ∧ rows evs
      = (if bool_decide (loaded_visited w0 = ∅) then [header_row] else [])
        ++ data
    ∧ row_link <$> data = Some <$> link_checks evs.
Proof.
  intros Hflag
    (order & menu_links & init_evs & _ & Hloop & _ & Hacc)%crawl_reaches_account.
  destruct Hloop as (evs & Hlog & _ & _ & _ & _ & Hrows & _). simpl in *.
  specialize (Hrows Hflag).
  destruct (bool_decide (loaded_visited w0 = ∅)).
  - destruct Hacc as (_ & _ & _ & Hchk & data & Hdata & _ & Hlinks).
    exists (init_evs ++ evs), (data ++ rows evs).
    split. { by rewrite Hlog, app_assoc. }
    split. { by rewrite rows_app, Hdata. }
    by rewrite link_checks_app, !fmap_app, Hrows, (Hlinks Hflag), Hchk.
  - destruct Hacc as [-> _]. exists evs, (rows evs).
    rewrite app_nil_r in Hlog. done.
Qed.

(** *** Runs that end *)

Local Abbreviation crawl_returns :=
  (crawl_returns http BeautifulSoup urljoin urlparse
     start_url base_url csv_filename record_only_broken).
Local Abbreviation tidy := (tidy base_url).

Lemma crawl_step_tidy menu_links c c' :
  tidy c → crawl_step menu_links c c' → tidy c'.
Proof.
  intros (Hdisj & Hscope & _ & _) Hstep.
  inversion Hstep as [order p v w v' w' Hpop Hiter]; subst. simpl in *.
  destruct (crawl_iteration_run http BeautifulSoup urljoin urlparse
              base_url csv_filename record_only_broken
              order menu_links p v w)
    as (v2 & w2 & evs & Hiter2 & Hlog & Hrun).
  rewrite Hiter in Hiter2. simplify_eq.
  rewrite bool_decide_eq_true_2 in Hrun by set_solver.
  rewrite (Hscope _ Hpop) in Hrun. simpl in Hrun.
  destruct Hrun as (page_links & w1 & body & _ & _ & _ & Hvis & _ & Hfront & Hfile).
  split_and!; simpl.
  - intros l Hl. rewrite Hvis.
    apply Hfront in Hl as [[Hl Hne]|(_ & _ & _ & _ & Hnew)]; [|done].
    apply Hdisj in Hl. set_solver.
  - intros l [[Hl _]|(_ & _ & _ & ? & _)]%Hfront; [by apply Hscope|done].
  - rewrite Hvis. set_solver.
  - done.
Qed.

Lemma crawl_steps_tidy menu_links c c' :
  tidy c → rtc (crawl_step menu_links) c c' → tidy c'.
Proof.
  intros Htidy. revert c'. apply rtc_ind_r; [done|].
  intros c1 c2 _ Hstep IH. by eapply crawl_step_tidy.
Qed.

Lemma completed_state_idle visited w0 :
  state_file w0 = Some (visited, ∅) →
  visited ≠ ∅ →
  (∃ w', crawl_returns w0 w')
  ∧ ∀ w', crawl_returns w0 w' →
          w' = add_events w0 [Print "Total number of links checked: 0"].
Proof.
  intros Hfile Hvisited.
  assert (∀ order,
            crawl_init order w0
            = (Ok ({| visited_pages := visited; links_to_crawl := ∅;
                      count_links := 0%nat |}, ∅), w0)) as Hinit.
  { intros order. unfold crawl_init, load_state. io_unfold. rewrite Hfile.
    simpl. rewrite (bool_decide_eq_false_2 _ Hvisited). simpl. done. }
  assert (∀ v w, crawl_reaches w0 (v, w) →
                 w = w0 ∧ v = {| visited_pages := visited; links_to_crawl := ∅;
                                 count_links := 0%nat |}) as Hidle.
  { intros v w (order & v0 & menu_links & w1 & Hrun & Hsteps).
    rewrite Hinit in Hrun. simplify_eq.
    apply rtc_inv in Hsteps as [?|([v2 w2] & Hstep & _)]; [by simplify_eq|].
    inversion Hstep as [? p ? ? ? ? Hin _]; subst. simpl in Hin.
    by apply not_elem_of_empty in Hin. }
  split.
  - exists (add_events w0 [Print "Total number of links checked: 0"]).
    exists {| visited_pages := visited; links_to_crawl := ∅;
              count_links := 0%nat |}, w0.
    split_and!; [|reflexivity..].
    exists (elements_order string). eexists _, _, _. split; [apply Hinit|].
    apply rtc_refl.
  - intros w' (v & w & Hrun & _ & Hprint).
    apply Hidle in Hrun as [-> ->]. unfold print_total in Hprint.
    io_unfold. by simplify_eq.
Qed.

(** X14. A run that starts from a frontier of unvisited pages in scope
    (a fresh run with the start URL in scope is one) and returns leaves a
    state file with a non-empty visited set and an empty frontier; run
    again from there, [crawl_website] returns having added nothing but
    the summary line. *)
Theorem completed_run_then_rerun_is_idle w0 w' :
  is_same_or_subpath start_url base_url = true →
  loaded_frontier w0 ## loaded_visited w0 →
  (∀ l, l ∈ loaded_frontier w0 → is_same_or_subpath l base_url = true) →
  crawl_returns w0 w' →
  (∃ visited, visited ≠ ∅ ∧ state_file w' = Some (visited, ∅))
  ∧ (∃ w'', crawl_returns w' w'')
  ∧ ∀ w'', crawl_returns w' w'' →
           w'' = add_events w' [Print "Total number of links checked: 0"].
Proof.
  intros Hstart Hdisj Hscope (v & w & Hreach & Hempty & Hprint).
  assert (tidy (v, w)) as (_ & _ & Hsome & Hfile).
  { destruct Hreach as (order & v0 & menu_links & w1 & Hinit & Hsteps).
    eapply crawl_steps_tidy; [|exact Hsteps].
    destruct (crawl_init_account order w0) as (menu' & evs & Hrun & _).
    rewrite Hrun in Hinit. simplify_eq. clear Hrun Hsteps Hprint.
    split_and!; simpl.
    - repeat case_bool_decide; simpl; set_solver.
    - intros l. repeat case_bool_decide; simpl; [|by apply Hscope..].
      intros [?| ->%elem_of_singleton]%elem_of_union; [by apply Hscope|done].
    - intros Hnone. rewrite (bool_decide_eq_true_2 _ Hnone). simpl.
      case_bool_decide as Hfront; [|done]. intros Heq.
      apply (not_elem_of_empty (C := gset string) start_url).
      rewrite <- Heq. by apply elem_of_union_r, elem_of_singleton.
    - intros Hvis. unfold loaded_visited, loaded_frontier in *.
      destruct (state_file w0) as [[visited loaded]|]; simpl in *; [|done].
      by rewrite bool_decide_eq_false_2. }
  simpl in *.
  assert (visited_pages v ≠ ∅) as Hvisited. { intros Hnone. by apply Hsome. }
  assert (state_file w' = Some (visited_pages v, ∅)) as Hfile'.
  { unfold print_total in Hprint. io_unfold. simplify_eq. simpl.
    rewrite (Hfile Hvisited). by rewrite Hempty. }
  split; [by exists (visited_pages v)|].
  by apply (completed_state_idle (visited_pages v)).
Qed.

(** *** Runs on a site with finitely many links *)

Section Finite.
Variable universe : gset string.
Hypothesis links_in_universe :
  ∀ t url r a,
    http t url None = inl r →
    a ∈ find_all "a" true (BeautifulSoup (text r)) →
    urljoin url (href a) ∈ universe.






End Finite.

End Accounting.

(** ** The extra properties on the small site *)

Lemma demo_reaches_after_start_unfiltered :
  Demo.reaches false Demo.fresh
    (Demo.vars_after_start, Demo.world_after_start_unfiltered).
Proof. apply demo_run_reaches with ["http://s/"]. vm_compute. reflexivity. Defined.




Lemma restart_resumes_without_loss_witness :
  Demo.reaches true Demo.fresh (Demo.vars_after_start, Demo.world_after_start)
  ∧ ∀ order,
      ∃ v0 menu_links w1,
        crawl_init Demo.http Demo.BeautifulSoup Demo.urljoin Demo.urlparse
          "http://s/" "report.csv" true order Demo.world_after_start
        = (Ok (v0, menu_links), w1)
        ∧ visited_pages v0 = visited_pages Demo.vars_after_start
        ∧ links_to_crawl Demo.vars_after_start ⊆ links_to_crawl v0.
Proof.
  split; [exact demo_reaches_after_start|].
  exact (restart_resumes_without_loss
           Demo.http Demo.BeautifulSoup Demo.urljoin Demo.urlparse
           "http://s/" "http://s/" "report.csv" true
           Demo.fresh Demo.vars_after_start Demo.world_after_start
           demo_reaches_after_start).
Defined.

Lemma only_in_scope_pages_are_crawled_witness :
  Demo.reaches true Demo.fresh (Demo.vars_after_start, Demo.world_after_start)
  ∧ ∃ evs,
      log Demo.world_after_start = log Demo.fresh ++ evs
      ∧ (∀ p, p ∈ visits evs → is_same_or_subpath p "http://s/" = true)
      ∧ page_fetches evs
        = (if bool_decide (loaded_visited Demo.fresh = ∅)
           then ["http://s/"] else [])
          ++ visits evs.
Proof.
  split; [exact demo_reaches_after_start|].
  exact (only_in_scope_pages_are_crawled
           Demo.http Demo.BeautifulSoup Demo.urljoin Demo.urlparse
           "http://s/" "http://s/" "report.csv" true
           Demo.fresh Demo.vars_after_start Demo.world_after_start
           demo_reaches_after_start).
Defined.

Lemma counter_counts_loop_checks_witness :
  Demo.reaches true Demo.fresh (Demo.vars_after_start, Demo.world_after_start)
  ∧ ∃ evs,
      log Demo.world_after_start = log Demo.fresh ++ evs
      ∧ if bool_decide (loaded_visited Demo.fresh = ∅)
        then ∃ menu_links w',
               extract_menu_links Demo.http Demo.BeautifulSoup Demo.urljoin
                 Demo.urlparse "http://s/" Demo.fresh = (Ok menu_links, w')
               ∧ length (link_checks evs)
                 = (size menu_links + count_links Demo.vars_after_start)%nat
        else length (link_checks evs) = count_links Demo.vars_after_start.
Proof.
  split; [exact demo_reaches_after_start|].
  exact (counter_counts_loop_checks
           Demo.http Demo.BeautifulSoup Demo.urljoin Demo.urlparse
           "http://s/" "http://s/" "report.csv" true
           Demo.fresh Demo.vars_after_start Demo.world_after_start
           demo_reaches_after_start).
Defined.

Lemma frontier_holds_seeds_or_in_scope_links_witness :
  Demo.reaches true Demo.fresh (Demo.vars_after_start, Demo.world_after_start)
  ∧ ∀ l,
      l ∈ links_to_crawl Demo.vars_after_start →
      l ∈ loaded_frontier Demo.fresh
      ∨ (l = "http://s/"
         ∧ loaded_visited Demo.fresh = ∅ ∧ loaded_frontier Demo.fresh = ∅)
      ∨ (is_same_or_subpath l "http://s/" = true
         ∧ is_valid_url Demo.urlparse l = true
         ∧ String.prefix blocklist_prefix l = false).
Proof.
  split; [exact demo_reaches_after_start|].
  exact (frontier_holds_seeds_or_in_scope_links
           Demo.http Demo.BeautifulSoup Demo.urljoin Demo.urlparse
           "http://s/" "http://s/" "report.csv" true
           Demo.fresh Demo.vars_after_start Demo.world_after_start
           demo_reaches_after_start).
Defined.

Lemma menu_links_checked_once_never_crawled_witness :
  (loaded_visited Demo.fresh = ∅
   ∧ extract_menu_links Demo.http Demo.BeautifulSoup Demo.urljoin Demo.urlparse
       "http://s/" Demo.fresh
     = (Ok {[ "http://s/about" ]}, add_events Demo.fresh [Get "http://s/" None])
   ∧ Demo.reaches true Demo.fresh
       (Demo.vars_after_start, Demo.world_after_start))
  ∧ ∃ evs menu_checks loop_checks,
      log Demo.world_after_start = log Demo.fresh ++ evs
      ∧ link_checks evs = menu_checks ++ loop_checks
      ∧ menu_checks ≡ₚ elements ({[ "http://s/about" ]} : gset string)
      ∧ ∀ l,
          l ∈ ({[ "http://s/about" ]} : gset string) →
          (l ∉ loop_checks)
          ∧ (l ∈ links_to_crawl Demo.vars_after_start ∨ l ∈ visits evs →
             l ∈ loaded_frontier Demo.fresh ∨ l = "http://s/").
Proof.
  assert (extract_menu_links Demo.http Demo.BeautifulSoup Demo.urljoin
            Demo.urlparse "http://s/" Demo.fresh
          = (Ok {[ "http://s/about" ]},
             add_events Demo.fresh [Get "http://s/" None])) as Hmenu.
  { vm_compute. reflexivity. }
  split; [split_and!; [reflexivity|exact Hmenu|exact demo_reaches_after_start]|].
  exact (menu_links_checked_once_never_crawled
           Demo.http Demo.BeautifulSoup Demo.urljoin Demo.urlparse
           "http://s/" "http://s/" "report.csv" true
           Demo.fresh Demo.vars_after_start Demo.world_after_start
           {[ "http://s/about" ]} (add_events Demo.fresh [Get "http://s/" None])
           eq_refl Hmenu demo_reaches_after_start).
Defined.

Lemma every_check_recorded_without_filter_witness :
  (false = false
   ∧ Demo.reaches false Demo.fresh
       (Demo.vars_after_start, Demo.world_after_start_unfiltered))
  ∧ ∃ evs data,
      log Demo.world_after_start_unfiltered = log Demo.fresh ++ evs
      ∧ rows evs
        = (if bool_decide (loaded_visited Demo.fresh = ∅)
           then [header_row] else [])
          ++ data
      ∧ row_link <$> data = Some <$> link_checks evs.
Proof.
  split; [split; [reflexivity|exact demo_reaches_after_start_unfiltered]|].
  exact (every_check_recorded_without_filter
           Demo.http Demo.BeautifulSoup Demo.urljoin Demo.urlparse
           "http://s/" "http://s/" "report.csv" false
           Demo.fresh Demo.vars_after_start Demo.world_after_start_unfiltered
           eq_refl demo_reaches_after_start_unfiltered).
Defined.



Lemma completed_run_then_rerun_is_idle_witness :
  (is_same_or_subpath "http://s/" "http://s/" = true
   ∧ loaded_frontier Demo.fresh ## loaded_visited Demo.fresh
   ∧ (∀ l, l ∈ loaded_frontier Demo.fresh →
           is_same_or_subpath l "http://s/" = true)
   ∧ Demo.returns true Demo.fresh
       (Demo.website true ["http://s/"; "http://s/contact"] Demo.fresh).2)
  ∧ ∃ visited,
      visited ≠ ∅
      ∧ state_file
          (Demo.website true ["http://s/"; "http://s/contact"] Demo.fresh).2
        = Some (visited, ∅).
Proof.
  assert (loaded_frontier Demo.fresh ## loaded_visited Demo.fresh) as Hdisj.
  { intros l Hl. change (l ∈ (∅ : gset string)) in Hl.
    by apply not_elem_of_empty in Hl. }
  assert (∀ l, l ∈ loaded_frontier Demo.fresh →
               is_same_or_subpath l "http://s/" = true) as Hscope.
  { intros l Hl. change (l ∈ (∅ : gset string)) in Hl.
    by apply not_elem_of_empty in Hl. }
  assert (Demo.returns true Demo.fresh
            (Demo.website true ["http://s/"; "http://s/contact"] Demo.fresh).2)
    as Hreturns.
  { apply demo_website_returns with ["http://s/"; "http://s/contact"].
    vm_compute. reflexivity. }
  split; [split_and!; [reflexivity|exact Hdisj|exact Hscope|exact Hreturns]|].
  exact (proj1 (completed_run_then_rerun_is_idle
                  Demo.http Demo.BeautifulSoup Demo.urljoin Demo.urlparse
                  "http://s/" "http://s/" "report.csv" true
                  Demo.fresh _ eq_refl Hdisj Hscope Hreturns)).
Defined.
